(** * Review API: the request handlers of [server.py]

    A shallow embedding of the WSGI application [ReviewAnalyzerServer] and of
    the helper [filter_by_date_range], with the properties of its GET and
    POST flows.

    Conventions of the embedding.
    - A Python [str] is a [string]; a character stands for a code point
      below 256, so the regular-expression classes [\d] and [\s] of
      [_strptime] are the ones written out in [Strptime].
    - A review (a Python [dict] with the keys [ReviewId], [ReviewBody],
      [Location], [Timestamp], [sentiment]) is a record; the keys that a
      seeded row may lack are optional fields.
    - The module-level list [reviews] is the store.  Its elements are
      mutable dicts that other lists alias, so a dict is identified by its
      position in [reviews] (the list only ever grows at its end) and
      [filtered_reviews] is a list of such positions.
    - An uncaught Python exception is the [Raise] outcome of [result]. *)

From stdpp Require Import gmap strings list fin_maps.
From Stdlib Require Import Ascii String ZArith Lia Permutation Sorted.

Local Open Scope string_scope.
Local Open Scope nat_scope.
Local Open Scope list_scope.

(** ** Exceptions *)

Inductive exn := ValueError | IndexError | KeyError.

Inductive result (A : Type) :=
| Ok (a : A)
| Raise (e : exn).
Arguments Ok {A} a.
Arguments Raise {A} e.

Definition rbind {A B} (r : result A) (f : A → result B) : result B :=
  match r with
  | Ok a => f a
  | Raise e => Raise e
  end.

Global Instance result_ret : MRet result := fun A a => Ok a.
Global Instance result_bind : MBind result := fun A B f r => rbind r f.

(** [for x in l: acc.append(f x)] where [f] may raise: the first exception
    wins. *)
Fixpoint rmapM {A B} (f : A → result B) (l : list A) : result (list B) :=
  match l with
  | [] => Ok []
  | x :: l' => y ← f x; ys ← rmapM f l'; Ok (y :: ys)
  end.

(** ** [datetime.datetime] and [strptime] *)

Module Strptime.

Local Open Scope N_scope.
Local Open Scope list_scope.

Record datetime := mkDatetime {
  year : N; month : N; day : N;
  hour : N; minute : N; second : N
}.

(** [datetime.__le__]: the fields compared in order, most significant
    first. *)
Definition fields (d : datetime) : list N :=
  [year d; month d; day d; hour d; minute d; second d].

Fixpoint lex_le (a b : list N) : bool :=
  match a, b with
  | x :: a', y :: b' =>
      if x <? y then true else if y <? x then false else lex_le a' b'
  | _, _ => true
  end.

Definition dt_le (a b : datetime) : bool := lex_le (fields a) (fields b).

Definition is_leap (y : N) : bool :=
  (y mod 4 =? 0) && (negb (y mod 100 =? 0) || (y mod 400 =? 0)).

Definition days_in_month (y m : N) : N :=
  match m with
  | 2 => if is_leap y then 29 else 28
  | 4 | 6 | 9 | 11 => 30
  | _ => 31
  end.

(** The checks of [datetime.date(y, m, d)] and of
    [datetime.datetime(..., h, mi, s)]. *)
Definition valid_date (y m d : N) : bool :=
  (1 <=? y) && (y <=? 9999) && (1 <=? m) && (m <=? 12)
  && (1 <=? d) && (d <=? days_in_month y m).

Definition valid_time (h mi s : N) : bool :=
  (h <=? 23) && (mi <=? 59) && (s <=? 59).

Definition valid_datetime (t : datetime) : bool :=
  valid_date (year t) (month t) (day t)
  && valid_time (hour t) (minute t) (second t).

(** *** The regular expressions of [_strptime.TimeRE]

    A pattern maps the remaining input to the list of its matches, in the
    order in which a backtracking matcher tries them; [re.match] takes the
    first match of the whole pattern. *)

Definition re (A : Type) := list ascii → list (A * list ascii).

Definition re_ret {A} (a : A) : re A := fun s => [(a, s)].

Definition re_bind {A B} (p : re A) (f : A → re B) : re B :=
  fun s => flat_map (fun ar => f (fst ar) (snd ar)) (p s).

Definition re_alt {A} (p q : re A) : re A := fun s => p s ++ q s.

Global Instance re_mret : MRet re := fun A a => re_ret a.
Global Instance re_mbind : MBind re := fun A B f p => re_bind p f.
Infix "<|>" := re_alt (at level 60, right associativity).

Definition digit_of (c : ascii) : option N :=
  let n := N_of_ascii c in
  if (48 <=? n) && (n <=? 57) then Some (n - 48) else None.

(** [[lo-hi]], a digit class. *)
Definition re_range (lo hi : N) : re N := fun s =>
  match s with
  | c :: r =>
      match digit_of c with
      | Some d => if (lo <=? d) && (d <=? hi) then [(d, r)] else []
      | None => []
      end
  | [] => []
  end.

(** [\d]. *)
Definition re_d : re N := re_range 0 9.

Definition re_lit (c : ascii) : re unit := fun s =>
  match s with
  | c' :: r => if Ascii.eqb c c' then [(tt, r)] else []
  | [] => []
  end.

(** Two digit classes in a row, read as a number. *)
Definition re_2 (a b c d : N) : re N :=
  x ← re_range a b ; y ← re_range c d ; re_ret (10 * x + y).

(** [(?P<Y>\d\d\d\d)] *)
Definition re_Y : re N :=
  a ← re_d ; b ← re_d ; c ← re_d ; d ← re_d;
  re_ret (1000 * a + 100 * b + 10 * c + d).

(** [(?P<m>1[0-2]|0[1-9]|[1-9])] *)
Definition re_m : re N :=
  re_2 1 1 0 2 <|> re_2 0 0 1 9 <|> re_range 1 9.

(** [(?P<d>3[0-1]|[1-2]\d|0[1-9]|[1-9]| [1-9])] *)
Definition re_dd : re N :=
  re_2 3 3 0 1 <|> re_2 1 2 0 9 <|> re_2 0 0 1 9 <|> re_range 1 9
  <|> (_ ← re_lit " "%char ; re_range 1 9).

(** [(?P<H>2[0-3]|[0-1]\d|\d)] *)
Definition re_H : re N := re_2 2 2 0 3 <|> re_2 0 1 0 9 <|> re_d.

(** [(?P<M>[0-5]\d|\d)] *)
Definition re_M : re N := re_2 0 5 0 9 <|> re_d.

(** [(?P<S>6[0-1]|[0-5]\d|\d)] *)
Definition re_S : re N := re_2 6 6 0 1 <|> re_2 0 5 0 9 <|> re_d.

(** [\s] on code points below 256. *)
Definition is_space (c : ascii) : bool :=
  let n := N_of_ascii c in
  ((9 <=? n) && (n <=? 13)) || ((28 <=? n) && (n <=? 32))
  || (n =? 133) || (n =? 160).

(** [\s*] and [\s+], greedy: the longest run first. *)
Fixpoint re_spaces_star (s : list ascii) : list (unit * list ascii) :=
  match s with
  | c :: r => if is_space c then re_spaces_star r ++ [(tt, s)] else [(tt, s)]
  | [] => [(tt, [])]
  end.

Definition re_spaces_plus : re unit := fun s =>
  match s with
  | c :: r => if is_space c then re_spaces_star r else []
  | [] => []
  end.

(** The pattern of the format [%Y-%m-%d]. *)
Definition re_date : re (N * N * N) :=
  y ← re_Y ; _ ← re_lit "-"%char ; m ← re_m ; _ ← re_lit "-"%char ; d ← re_dd;
  re_ret (y, m, d).

(** The pattern of the format [%Y-%m-%d %H:%M:%S]; the blank of the
    format becomes [\s+]. *)
Definition re_timestamp : re datetime :=
  ymd ← re_date ; _ ← re_spaces_plus;
  h ← re_H ; _ ← re_lit ":"%char ; mi ← re_M ; _ ← re_lit ":"%char ; s ← re_S;
  re_ret (mkDatetime ymd.1.1 ymd.1.2 ymd.2 h mi s).

(** [re.match] followed by the test for unconverted data: the first match
    has to end at the end of the input. *)
Definition full_match {A} (p : re A) (s : string) : option A :=
  match p (list_ascii_of_string s) with
  | (a, []) :: _ => Some a
  | _ => None
  end.

(** [datetime.datetime.strptime(s, "%Y-%m-%d")]; [None] is [ValueError]. *)
Definition strptime_date (s : string) : option datetime :=
  match full_match re_date s with
  | Some (y, m, d) =>
      if valid_date y m d then Some (mkDatetime y m d 0 0 0) else None
  | None => None
  end.

(** [datetime.datetime.strptime(s, "%Y-%m-%d %H:%M:%S")]. *)
Definition strptime_timestamp (s : string) : option datetime :=
  match full_match re_timestamp s with
  | Some t => if valid_datetime t then Some t else None
  | None => None
  end.

(** *** [strftime("%Y-%m-%d %H:%M:%S")] *)

Definition digit_char (d : N) : ascii := ascii_of_N (48 + d).

Definition pad2 (n : N) : list ascii :=
  [digit_char (n / 10); digit_char (n mod 10)].

(** The year in four digits, which is what every platform prints for a
    year from 1000 on. *)
Definition pad4 (n : N) : list ascii :=
  [digit_char (n / 1000); digit_char (n / 100 mod 10);
   digit_char (n / 10 mod 10); digit_char (n mod 10)].

(** [%Y]: the C library prints the year as a plain decimal number, so a
    year below 1000 comes out with fewer than four digits. *)
Definition year_chars (n : N) : list ascii :=
  if n <? 10 then [digit_char n]
  else if n <? 100 then pad2 n
  else if n <? 1000 then
    [digit_char (n / 100); digit_char (n / 10 mod 10); digit_char (n mod 10)]
  else pad4 n.

Definition strftime (t : datetime) : string :=
  string_of_list_ascii
    (year_chars (year t) ++ "-"%char :: pad2 (month t) ++ "-"%char
     :: pad2 (day t)
     ++ " "%char :: pad2 (hour t) ++ ":"%char :: pad2 (minute t)
     ++ ":"%char :: pad2 (second t)).

End Strptime.

Import Strptime.

(** ** The instant of a datetime

    The order of time, told without [datetime.__le__]: the day number of a
    date is the one of [date.toordinal] (1 for 0001-01-01, proleptic
    Gregorian calendar), and an instant is a count of seconds. *)

Definition days_before_year (y : N) : Z :=
  let p := (Z.of_N y - 1)%Z in (365 * p + p / 4 - p / 100 + p / 400)%Z.

Definition days_before_month (y m : N) : Z :=
  (match m with
   | 1%N => 0 | 2%N => 31 | 3%N => 59 | 4%N => 90 | 5%N => 120 | 6%N => 151
   | 7%N => 181 | 8%N => 212 | 9%N => 243 | 10%N => 273 | 11%N => 304
   | _ => 334
   end
   + if (2 <? m)%N && is_leap y then 1 else 0)%Z.

Definition toordinal (y m d : N) : Z :=
  (days_before_year y + days_before_month y m + Z.of_N d)%Z.

Definition year_length (y : N) : Z := if is_leap y then 366 else 365.

(** The midnight that starts the day of [t], in seconds. *)
Definition day_start (t : datetime) : Z :=
  (86400 * toordinal (year t) (month t) (day t))%Z.

(** The instant [t], in seconds. *)
Definition instant (t : datetime) : Z :=
  (day_start t + 3600 * Z.of_N (hour t) + 60 * Z.of_N (minute t)
   + Z.of_N (second t))%Z.

(** ** Python built-ins used by the handlers *)

(** The line boundaries of [str.splitlines] among the code points below
    256. *)
Definition is_linebreak (c : ascii) : bool :=
  let n := N_of_ascii c in
  (((10 <=? n) && (n <=? 13)) || ((28 <=? n) && (n <=? 30)) || (n =? 133))%N.

(** [cur] is the line being read, last character first; [after_cr] tells
    that the previous character was a carriage return, so that a line feed
    right after it belongs to the same boundary. *)
Fixpoint splitlines_from (after_cr : bool) (cur : list ascii) (s : list ascii)
  : list string :=
  match s with
  | [] =>
      match cur with
      | [] => []
      | _ => [string_of_list_ascii (reverse cur)]
      end
  | c :: r =>
      if after_cr && Ascii.eqb c "010"%char then splitlines_from false cur r
      else if is_linebreak c then
        string_of_list_ascii (reverse cur)
          :: splitlines_from (Ascii.eqb c "013"%char) [] r
      else splitlines_from false (c :: cur) r
  end.

Definition splitlines (s : string) : list string :=
  splitlines_from false [] (list_ascii_of_string s).

(** [x[0]] on a list. *)
Definition item0 {A} (l : list A) : result A :=
  match l with
  | x :: _ => Ok x
  | [] => Raise IndexError
  end.

(** A comprehension [[x for x in l if p x]] whose condition may raise. *)
Fixpoint rfilter {A} (p : A → result bool) (l : list A) : result (list A) :=
  match l with
  | [] => Ok []
  | x :: l' =>
      b ← p x; ys ← rfilter p l'; Ok (if b : bool then x :: ys else ys)
  end.

(** [list.sort(key=..., reverse=...)] on the keys computed beforehand.
    The sort compares with [<] only and is stable; with [reverse] the list
    is reversed before and after the sort, which keeps equal keys in their
    original order. *)
Fixpoint insert_sorted {A} (x : Z * A) (l : list (Z * A)) : list (Z * A) :=
  match l with
  | [] => [x]
  | y :: l' =>
      if (y.1 <? x.1)%Z then y :: insert_sorted x l' else x :: y :: l'
  end.

Fixpoint sort_asc {A} (l : list (Z * A)) : list (Z * A) :=
  match l with
  | [] => []
  | x :: l' => insert_sorted x (sort_asc l')
  end.

Definition list_sort {A} (rev : bool) (l : list (Z * A)) : list (Z * A) :=
  if rev then reverse (sort_asc (reverse l)) else sort_asc l.

(** The order of the keys in a sorted list of keyed items. *)
Definition ascending {A} (x y : Z * A) : Prop := (x.1 ≤ y.1)%Z.
Definition descending {A} (x y : Z * A) : Prop := (y.1 ≤ x.1)%Z.

(** Ascending keys, and [Q] among the items of one key. *)
Definition keyed_order {A} (Q : relation (Z * A)) (x y : Z * A) : Prop :=
  (x.1 < y.1)%Z ∨ (x.1 = y.1 ∧ Q x y).

(** ** The data model *)

(** The dict returned by [polarity_scores]; a score is counted in
    ten-thousandths, the precision to which the scorer rounds. *)
Record scores := mkScores { neg : Z; neu : Z; pos : Z; compound : Z }.

Record review := mkReview {
  ReviewId : option string;
  ReviewBody : string;
  Location : string;
  Timestamp : string;
  sentiment : option scores
}.

Global Instance scores_eq_dec : EqDecision scores.
Proof. solve_decision. Defined.
Global Instance review_eq_dec : EqDecision review.
Proof. solve_decision. Defined.
Global Instance review_inhabited : Inhabited review :=
  populate (mkReview None "" "" "" None).

(** [review["sentiment"] = s] *)
Definition set_sentiment (s : scores) (r : review) : review :=
  mkReview (ReviewId r) (ReviewBody r) (Location r) (Timestamp r) (Some s).

(** What the handler passes to [json.dumps]. *)
Inductive payload :=
| PReviews (l : list review)
| PReview (r : review)
| PError (msg : string).

(** The status line given to [start_response] and the body; both headers
    are the same on every path and are left out. *)
Record response := mkResponse { status : string; body : payload }.

(** The string literal of the handlers, line by line. *)
Definition allowed_locations_text : string :=
"Albuquerque, New Mexico
Carlsbad, California
Chula Vista, California
Colorado Springs, Colorado
Denver, Colorado
El Cajon, California
El Paso, Texas
Escondido, California
Fresno, California
La Mesa, California
Las Vegas, Nevada
Los Angeles, California
Oceanside, California
Phoenix, Arizona
Sacramento, California
Salt Lake City, Utah
Salt Lake City, Utah
San Diego, California
Tucson, Arizona".

Definition allowed_locations : list string := splitlines allowed_locations_text.

(** ** [filter_by_date_range] *)

Section Server.

(** [sia.polarity_scores], the external scorer. *)
Variable polarity_scores : string → scores.

(** The result of [parse_qs]: each key with the list of its values. *)
Implicit Types query_params parsed_body : gmap string (list string).
(** [reviews] doubles as the heap of review dicts. *)
Implicit Types reviews : list review.
Implicit Types filtered_reviews : list nat.

(** [datetime.datetime.strptime(review["Timestamp"], "%Y-%m-%d %H:%M:%S")] *)
Definition review_time reviews (i : nat) : result datetime :=
  match strptime_timestamp (Timestamp (reviews !!! i)) with
  | Some t => Ok t
  | None => Raise ValueError
  end.

(** The three comprehensions; [start_date] and [end_date] are bound exactly
    when their key is in [query_params]. *)
Definition date_comprehension reviews filtered_reviews
    (start_date end_date : option datetime) : result (list nat) :=
  match start_date, end_date with
  | Some s, Some e =>
      rfilter (fun i => t ← review_time reviews i; Ok (dt_le s t && dt_le t e))
        filtered_reviews
  | Some s, None =>
      rfilter (fun i => t ← review_time reviews i; Ok (dt_le s t))
        filtered_reviews
  | None, Some e =>
      rfilter (fun i => t ← review_time reviews i; Ok (dt_le t e))
        filtered_reviews
  | None, None => Ok filtered_reviews
  end.

Definition filter_by_date_range reviews filtered_reviews query_params
  : result (list nat) :=
  let second_if (start_date : option datetime) :=
    match query_params !! "end_date" with
    | Some vs =>
        v ← item0 vs;
        match strptime_date v with
        | Some end_date =>
            date_comprehension reviews filtered_reviews start_date
              (Some end_date)
        | None => Ok filtered_reviews
        end
    | None => date_comprehension reviews filtered_reviews start_date None
    end in
  match query_params !! "start_date" with
  | Some vs =>
      v ← item0 vs;
      match strptime_date v with
      | Some start_date => second_if (Some start_date)
      | None => Ok filtered_reviews
      end
  | None => second_if None
  end.

(** ** [ReviewAnalyzerServer] *)

Definition analyze_sentiment (review_body : string) : scores :=
  polarity_scores review_body.

(** The filters of the GET branch, up to the allow-list test.  The first
    line is [reviews.copy()]: a new list of the same dicts. *)
Definition get_filter reviews query_params : result (list nat) :=
  let filtered_reviews := seq 0 (List.length reviews) in
  filtered_reviews ←
    match query_params !! "location" with
    | Some vs =>
        location ← item0 vs;
        Ok (filter (fun i => Location (reviews !!! i) = location)
              filtered_reviews)
    | None => Ok filtered_reviews
    end;
  filtered_reviews ← filter_by_date_range reviews filtered_reviews query_params;
  match query_params !! "location" with
  | Some vs =>
      location ← item0 vs;
      Ok (if decide (location ∈ allowed_locations) then filtered_reviews
          else [])
  | None => Ok filtered_reviews
  end.

(** The body of the loop below, on one dict. *)
Definition scored (r : review) : review :=
  set_sentiment (analyze_sentiment (ReviewBody r)) r.

(** [for review in filtered_reviews: review["sentiment"] = ...]: the dicts
    are the ones of the store. *)
Definition attach_sentiment reviews filtered_reviews : list review :=
  foldl (fun heap i => alter scored i heap) reviews filtered_reviews.

(** [lambda x: x["sentiment"]["compound"]] *)
Definition sort_key reviews (i : nat) : result Z :=
  match sentiment (reviews !!! i) with
  | Some s => Ok (compound s)
  | None => Raise KeyError
  end.

(** The ranking step: attach the scores, sort by them. *)
Definition rank reviews filtered_reviews : list review * result (list nat) :=
  let reviews := attach_sentiment reviews filtered_reviews in
  (reviews,
   keys ← rmapM (sort_key reviews) filtered_reviews;
   Ok ((list_sort true (zip keys filtered_reviews)).*2)).

Definition handle_get reviews query_params : list review * result response :=
  match get_filter reviews query_params with
  | Raise e => (reviews, Raise e)
  | Ok filtered_reviews =>
      let '(reviews, ranked) := rank reviews filtered_reviews in
      (reviews,
       filtered_reviews ← ranked;
       Ok (mkResponse "200 OK"
             (PReviews ((fun i => reviews !!! i) <$> filtered_reviews))))
  end.

(** The dict [new_review] of the POST branch. *)
Definition created (review_body location uuid : string) (now : datetime)
  : review :=
  mkReview (Some uuid) review_body location (strftime now)
    (Some (analyze_sentiment review_body)).

(** The POST branch; [uuid] is [str(uuid.uuid4())] and [now] is
    [datetime.datetime.now()]. *)
Definition handle_post reviews parsed_body (uuid : string) (now : datetime)
  : list review * result response :=
  match
    (review_body ← (vs ← from_option Ok (Raise KeyError)
                               (parsed_body !! "ReviewBody"); item0 vs);
     location ← (vs ← from_option Ok (Raise KeyError)
                            (parsed_body !! "Location"); item0 vs);
     Ok (review_body, location))
  with
  | Raise _ =>
      (reviews,
       Ok (mkResponse "400 Bad Request"
             (PError "ReviewBody and Location are required")))
  | Ok (review_body, location) =>
      if decide (location ∈ allowed_locations) then
        let new_review := created review_body location uuid now in
        (reviews ++ [new_review],
         Ok (mkResponse "201 Created" (PReview new_review)))
      else
        (reviews,
         Ok (mkResponse "400 Bad Request"
               (PError "Invalid location provided")))
  end.

(** A request as [__call__] sees it. *)
Inductive request :=
| GET (query_params : gmap string (list string))
| POST (parsed_body : gmap string (list string)) (uuid : string)
    (now : datetime).

Definition call reviews (req : request) : list review * result response :=
  match req with
  | GET query_params => handle_get reviews query_params
  | POST parsed_body uuid now => handle_post reviews parsed_body uuid now
  end.

(** The store after a sequence of requests. *)
Definition serve reviews (reqs : list request) : list review :=
  foldl (fun reviews req => (call reviews req).1) reviews reqs.

(** ** Vocabulary of the properties *)

(** The compound score the scorer gives to the review at position [i]. *)
Definition score reviews (i : nat) : Z :=
  compound (analyze_sentiment (ReviewBody (reviews !!! i))).

(** The positions [filtered_reviews], sorted by that score. *)
Definition ranking reviews filtered_reviews : list nat :=
  (list_sort true ((fun i => (score reviews i, i)) <$> filtered_reviews)).*2.

(** The request supplies the parameter [k], and [v] is the value the
    handler reads. *)
Definition supplied query_params (k v : string) : Prop :=
  ∃ vs, query_params !! k = Some (v :: vs).

(** [parse_qs] never maps a key to an empty list. *)
Definition parse_qs_shaped query_params : Prop :=
  map_Forall (fun _ vs => vs ≠ []) query_params.

(** The parameter [k] is supplied and is not a date. *)
Definition malformed query_params (k : string) : Prop :=
  ∃ v, supplied query_params k v ∧ strptime_date v = None.

(** The parameter [k] is absent ([None]) or is the date [d]. *)
Definition bound query_params (k : string) (b : option datetime) : Prop :=
  match b with
  | Some d => ∃ v, supplied query_params k v ∧ strptime_date v = Some d
  | None => query_params !! k = None
  end.

(** [start ≤ t ≤ end], each bound only when given. *)
Definition in_range (start_date end_date : option datetime) (t : datetime)
  : bool :=
  from_option (fun s => dt_le s t) true start_date
  && from_option (fun e => dt_le t e) true end_date.

Definition kept reviews (start_date end_date : option datetime) (i : nat)
  : bool :=
  match strptime_timestamp (Timestamp (reviews !!! i)) with
  | Some t => in_range start_date end_date t
  | None => false
  end.

(** The timestamp of the review reads as an instant that is not before the
    midnight that starts the day [start_date] and not after the midnight
    that starts the day [end_date], each bound only when given. *)
Definition within (start_date end_date : option datetime) (r : review)
  : bool :=
  match strptime_timestamp (Timestamp r) with
  | Some t =>
      from_option (fun s => (day_start s <=? instant t)%Z) true start_date
      && from_option (fun e => (instant t <=? day_start e)%Z) true end_date
  | None => false
  end.

Definition parseable (r : review) : Prop :=
  is_Some (strptime_timestamp (Timestamp r)).

(** The reading of a malformed bound under which only that bound is
    dropped: the filter answers as if the parameter were absent. *)
Definition only_malformed_bound_dropped : Prop :=
  ∀ reviews filtered_reviews query_params (k : string),
    k ∈ ["start_date"; "end_date"] → malformed query_params k →
    filter_by_date_range reviews filtered_reviews query_params
    = filter_by_date_range reviews filtered_reviews (delete k query_params).

(** The fields of a review other than [sentiment]. *)
Definition data (r : review) : option string * string * string * string :=
  (ReviewId r, ReviewBody r, Location r, Timestamp r).

(** The order of a GET response: the higher score first and, among equal
    scores, the earlier position in the store first. *)
Definition by_score_then_position reviews (i j : nat) : Prop :=
  (score reviews j < score reviews i)%Z
  ∨ (score reviews i = score reviews j ∧ i < j).

(** The review passes the location part of a GET: no location is asked
    for, or the one asked for is the review's and is in the allow-list. *)
Definition located query_params (r : review) : bool :=
  match query_params !! "location" with
  | Some (location :: _) =>
      bool_decide (Location r = location ∧ location ∈ allowed_locations)
  | Some [] => false
  | None => true
  end.

(** The review passes the date part of a GET with the given bounds. *)
Definition dated (start_date end_date : option datetime) (r : review) : bool :=
  match strptime_timestamp (Timestamp r) with
  | Some t => in_range start_date end_date t
  | None => false
  end.

(** The review passes the filters of a GET whose date parameters read as
    the given bounds; without bounds no timestamp is looked at. *)
Definition passes query_params (start_date end_date : option datetime)
    (r : review) : bool :=
  located query_params r
  && match start_date, end_date with
     | None, None => true
     | _, _ => dated start_date end_date r
     end.

(** The clock reading of a POST is a date and time of the year 1000 or
    later. *)
Definition clock_ok (req : request) : Prop :=
  match req with
  | GET _ => True
  | POST _ _ now => valid_datetime now = true ∧ (1000 ≤ year now)%N
  end.

End Server.

(** ** Sample data *)

(** A scorer for the examples: the length of the text. *)
Definition length_scorer (s : string) : scores :=
  mkScores 0 0 0 (Z.of_nat (String.length s)).

(** A seeded row: no [ReviewId], no [sentiment]. *)
Definition seeded_review : review :=
  mkReview None "good" "Denver, Colorado" "2021-01-05 10:00:00" None.

Definition nowhere_review : review :=
  mkReview None "bad" "Nowhere" "2021-01-06 10:00:00" None.

Definition midnight_review : review :=
  mkReview None "okay" "Denver, Colorado" "2021-01-06 00:00:00" None.

(** A month that does not exist next to a well-formed end date. *)
Definition malformed_start_query : gmap string (list string) :=
  {[ "start_date" := ["2021-13-45"]; "end_date" := ["2020-12-31"] ]}.

Definition unknown_location_query : gmap string (list string) :=
  {[ "location" := ["Nowhere"]; "start_date" := ["2021-01-01"] ]}.

Definition january_sixth_query : gmap string (list string) :=
  {[ "start_date" := ["2021-01-06"]; "end_date" := ["2021-01-06"] ]}.

(** A row whose timestamp column holds no timestamp. *)
Definition undated_review : review :=
  mkReview None "bad" "Nowhere" "yesterday" None.

(** A start date after the end date. *)
Definition inverted_query : gmap string (list string) :=
  {[ "start_date" := ["2021-02-01"]; "end_date" := ["2021-01-01"] ]}.

Definition start_only_query : gmap string (list string) :=
  {[ "start_date" := ["2021-01-01"] ]}.

Definition denver_query : gmap string (list string) :=
  {[ "location" := ["Denver, Colorado"] ]}.

Definition sample_now : datetime := mkDatetime 2024 2 29 13 5 9.

Definition sample_form : gmap string (list string) :=
  {[ "ReviewBody" := ["Great stay"]; "Location" := ["Denver, Colorado"] ]}.

Arguments GET : clear implicits.
Arguments POST : clear implicits.

(** ** Facts about the built-ins *)

(** Runs the binds whose first computation is already a value. *)
Tactic Notation "run_binds" :=
  cbn [item0 mbind mret result_bind result_ret rbind].
Tactic Notation "run_binds" "in" hyp(H) :=
  cbn [item0 mbind mret result_bind result_ret rbind] in H.

Lemma rbind_ok {A B} (r : result A) (f : A → result B) (b : B) :
  (r ≫= f) = Ok b ↔ ∃ a, r = Ok a ∧ f a = Ok b.
Proof.
  destruct r as [a|e]; split.
  - intros H. exists a. auto.
  - intros (a' & [= <-] & H). exact H.
  - intros [=].
  - intros (a' & [=] & _).
Qed.

Lemma rfilter_ok {A} (p : A → result bool) (q : A → bool) (l : list A) :
  Forall (fun x => p x = Ok (q x)) l → rfilter p l = Ok (filter q l).
Proof.
  induction 1 as [|x l Hx _ IH]; [reflexivity|].
  rewrite filter_cons. cbn [rfilter]. rewrite Hx, IH.
  destruct (q x); reflexivity.
Qed.

Lemma rmapM_ok {A B} (f : A → result B) (g : A → B) (l : list A) :
  Forall (fun x => f x = Ok (g x)) l → rmapM f l = Ok (g <$> l).
Proof.
  induction 1 as [|x l Hx _ IH]; [reflexivity|].
  cbn [rmapM]. rewrite Hx, IH. reflexivity.
Qed.

Section Sorting.

Context {A : Type}.
Implicit Types (x : Z * A) (l : list (Z * A)).

Lemma insert_sorted_perm x l : Permutation (insert_sorted x l) (x :: l).
Proof.
  induction l as [|y l IH]; cbn; [reflexivity|].
  destruct (y.1 <? x.1)%Z; [|reflexivity].
  rewrite IH. apply perm_swap.
Qed.

Lemma sort_asc_perm l : Permutation (sort_asc l) l.
Proof.
  induction l as [|x l IH]; cbn; [reflexivity|].
  rewrite insert_sorted_perm. by constructor.
Qed.

Lemma insert_sorted_ascending x l :
  StronglySorted ascending l → StronglySorted ascending (insert_sorted x l).
Proof.
  induction 1 as [|y l Hl IH Hy]; cbn.
  - repeat constructor.
  - destruct (Z.ltb_spec y.1 x.1) as [Hlt|Hge].
    + constructor; [exact IH|].
      rewrite insert_sorted_perm. constructor; [|exact Hy].
      unfold ascending. lia.
    + constructor; [by constructor|].
      constructor; [exact Hge|].
      eapply Forall_impl; [exact Hy|].
      unfold ascending. intros z Hz. lia.
Qed.

Lemma sort_asc_ascending l : StronglySorted ascending (sort_asc l).
Proof.
  induction l as [|x l IH]; cbn; [constructor|].
  by apply insert_sorted_ascending.
Qed.

(** Insertion passes only elements with a smaller key, so the elements of
    one key keep their order. *)
Lemma insert_sorted_stable (k : Z) x l :
  filter (fun y => y.1 = k) (insert_sorted x l)
  = filter (fun y => y.1 = k) (x :: l).
Proof.
  induction l as [|y l IH]; cbn; [reflexivity|].
  destruct (Z.ltb_spec y.1 x.1) as [Hlt|Hge]; [|reflexivity].
  rewrite (filter_cons _ y), IH, !filter_cons.
  repeat case_decide; try reflexivity. lia.
Qed.

Lemma sort_asc_stable (k : Z) l :
  filter (fun y => y.1 = k) (sort_asc l) = filter (fun y => y.1 = k) l.
Proof.
  induction l as [|x l IH]; cbn; [reflexivity|].
  by rewrite insert_sorted_stable, !filter_cons, IH.
Qed.

Lemma StronglySorted_snoc (R : Z * A → Z * A → Prop) l x :
  StronglySorted R l → Forall (fun y => R y x) l →
  StronglySorted R (l ++ [x]).
Proof.
  induction 1 as [|y l Hl IH Hy]; intros Hx; cbn.
  - repeat constructor.
  - inversion_clear Hx as [|? ? Hyx Hlx].
    constructor; [by apply IH|].
    apply Forall_app. split; [exact Hy|]. by constructor.
Qed.

Lemma ascending_rev l :
  StronglySorted ascending l → StronglySorted descending (reverse l).
Proof.
  induction 1 as [|y l Hl IH Hy]; [constructor|].
  rewrite reverse_cons.
  apply StronglySorted_snoc; [exact IH|].
  apply Forall_reverse. exact Hy.
Qed.

Lemma list_sort_reverse_perm l : Permutation (list_sort true l) l.
Proof.
  unfold list_sort.
  by rewrite reverse_Permutation, sort_asc_perm, reverse_Permutation.
Qed.

Lemma list_sort_reverse_descending l :
  StronglySorted descending (list_sort true l).
Proof. apply ascending_rev, sort_asc_ascending. Qed.

Lemma list_sort_reverse_stable (k : Z) l :
  filter (fun y => y.1 = k) (list_sort true l) = filter (fun y => y.1 = k) l.
Proof.
  unfold list_sort.
  by rewrite filter_reverse, sort_asc_stable, filter_reverse, reverse_involutive.
Qed.

End Sorting.

Lemma filter_agree {A} (P Q : A → Prop) `{!∀ x, Decision (P x)}
    `{!∀ x, Decision (Q x)} (l : list A) :
  Forall (fun x => P x ↔ Q x) l → filter P l = filter Q l.
Proof.
  induction 1 as [|x l Hx _ IH]; [reflexivity|].
  rewrite !filter_cons, IH. repeat case_decide; tauto.
Qed.

Lemma filter_all {A} (P : A → Prop) `{!∀ x, Decision (P x)} (l : list A) :
  Forall P l → filter P l = l.
Proof.
  induction 1 as [|x l Hx _ IH]; [reflexivity|].
  by rewrite filter_cons, decide_True, IH.
Qed.

Lemma filter_fmap_comm {A B} (f : A → B) (P : B → Prop)
    `{!∀ y, Decision (P y)} (l : list A) :
  filter P (f <$> l) = f <$> filter (fun x => P (f x)) l.
Proof.
  induction l as [|x l IH]; [reflexivity|].
  rewrite fmap_cons, !filter_cons, IH. by case_decide.
Qed.

Lemma StronglySorted_fmap_on {A B} (R : relation A) (S : relation B)
    (f : A → B) (l : list A) :
  (∀ x y, x ∈ l → y ∈ l → R x y → S (f x) (f y)) →
  StronglySorted R l → StronglySorted S (f <$> l).
Proof.
  intros HRS Hl. induction Hl as [|x l Hl IH Hx]; [constructor|].
  rewrite fmap_cons. constructor.
  - apply IH. intros y z Hy Hz. apply HRS; by right.
  - apply Forall_fmap, Forall_forall. intros y Hy.
    rewrite Forall_forall in Hx. apply HRS; [left|by right|by apply Hx].
Qed.

(** Pairing each item with its key, as [list.sort] does. *)
Lemma zip_fmap_self {A B} (f : A → B) (l : list A) :
  zip (f <$> l) l = (fun x => (f x, x)) <$> l.
Proof. induction l as [|x l IH]; [reflexivity|]. cbn. by rewrite IH. Qed.

(** ** Facts about [strptime] and [strftime] *)

Module StrptimeFacts.
Local Open Scope N_scope.

Lemma below_cases (P : N → Prop) (k : nat) :
  (∀ i : nat, (i < k)%nat → P (N.of_nat i)) → ∀ n, n < N.of_nat k → P n.
Proof.
  intros HP n Hn. rewrite <- (N2Nat.id n). apply HP. lia.
Qed.

Ltac enumerate_below n k :=
  pattern n; apply (below_cases _ k); [|lia];
  let i := fresh "i" in
  let Hi := fresh "Hi" in
  intros i Hi;
  repeat (destruct i as [|i];
          [first [ vm_compute; reflexivity | intros; lia ]
          |try (exfalso; clear -Hi; lia)]).

Lemma digit_of_char (k : N) : k < 10 → digit_of (digit_char k) = Some k.
Proof. intros Hk. enumerate_below k 10%nat. Qed.

Lemma digit_char_not_space (k : N) : k < 10 → is_space (digit_char k) = false.
Proof. intros Hk. enumerate_below k 10%nat. Qed.

Lemma re_d_char (k : N) (rest : list ascii) :
  k < 10 → re_d (digit_char k :: rest) = [(k, rest)].
Proof.
  intros Hk. unfold re_d, re_range. rewrite digit_of_char by done.
  replace ((0 <=? k) && (k <=? 9)) with true; [done|].
  symmetry. apply andb_true_intro. split; apply N.leb_le; lia.
Qed.

Lemma head_bind {A B} (p : re A) (f : A → re B) s a r x :
  head (p s) = Some (a, r) → head (f a r) = Some x →
  head ((p ≫= f) s) = Some x.
Proof.
  unfold mbind, re_mbind, re_bind. intros Hp Hf.
  destruct (p s) as [|[a' r'] tl]; [done|]. injection Hp as -> ->.
  cbn. destruct (f a r); [done|]. cbn in *. done.
Qed.

Lemma year_digits (y : N) :
  y ≤ 9999 →
  y / 1000 < 10 ∧ y / 100 mod 10 < 10 ∧ y / 10 mod 10 < 10 ∧ y mod 10 < 10
  ∧ 1000 * (y / 1000) + 100 * (y / 100 mod 10) + 10 * (y / 10 mod 10)
    + y mod 10 = y.
Proof. intros. zify. Z.to_euclidean_division_equations. lia. Qed.

Lemma re_Y_pad4 (y : N) rest :
  y ≤ 9999 → head (re_Y (pad4 y ++ rest)) = Some (y, rest).
Proof.
  intros (Ha & Hb & Hc & Hd & Hy)%year_digits. unfold re_Y, pad4.
  cbn [app].
  eapply head_bind; [by rewrite re_d_char|].
  eapply head_bind; [by rewrite re_d_char|].
  eapply head_bind; [by rewrite re_d_char|].
  eapply head_bind; [by rewrite re_d_char|].
  cbn. by rewrite Hy.
Qed.

Lemma re_m_pad2 (m : N) rest :
  1 ≤ m → m ≤ 12 → head (re_m (pad2 m ++ rest)) = Some (m, rest).
Proof. intros H1 H2. revert H1. enumerate_below m 13%nat. Qed.

Lemma re_dd_pad2 (d : N) rest :
  1 ≤ d → d ≤ 31 → head (re_dd (pad2 d ++ rest)) = Some (d, rest).
Proof. intros H1 H2. revert H1. enumerate_below d 32%nat. Qed.

Lemma re_H_pad2 (h : N) rest :
  h ≤ 23 → head (re_H (pad2 h ++ rest)) = Some (h, rest).
Proof. intros H. enumerate_below h 24%nat. Qed.

Lemma re_M_pad2 (m : N) rest :
  m ≤ 59 → head (re_M (pad2 m ++ rest)) = Some (m, rest).
Proof. intros H. enumerate_below m 60%nat. Qed.

Lemma re_S_pad2 (s : N) rest :
  s ≤ 59 → head (re_S (pad2 s ++ rest)) = Some (s, rest).
Proof. intros H. enumerate_below s 60%nat. Qed.

Lemma re_lit_head (c : ascii) rest : head (re_lit c (c :: rest)) = Some (tt, rest).
Proof. unfold re_lit. by rewrite Ascii.eqb_refl. Qed.

Lemma re_spaces_plus_pad2 (h : N) rest :
  h ≤ 99 →
  head (re_spaces_plus (" "%char :: pad2 h ++ rest))
  = Some (tt, pad2 h ++ rest).
Proof.
  intros Hh. unfold re_spaces_plus, pad2. cbn [app re_spaces_star].
  replace (is_space " ") with true by reflexivity.
  rewrite digit_char_not_space; [done|].
  zify. Z.to_euclidean_division_equations. lia.
Qed.

Lemma days_in_month_le (y m : N) : days_in_month y m ≤ 31.
Proof.
  unfold days_in_month.
  repeat case_match; lia.
Qed.

Lemma valid_datetime_bounds t :
  valid_datetime t = true →
  1 ≤ year t ∧ year t ≤ 9999 ∧ 1 ≤ month t ∧ month t ≤ 12 ∧ 1 ≤ day t
  ∧ day t ≤ 31 ∧ hour t ≤ 23 ∧ minute t ≤ 59 ∧ second t ≤ 59.
Proof.
  unfold valid_datetime, valid_date, valid_time.
  rewrite !andb_true_iff, !N.leb_le.
  pose proof (days_in_month_le (year t) (month t)). lia.
Qed.

Lemma year_chars_four (y : N) : 1000 ≤ y → year_chars y = pad4 y.
Proof.
  intros Hy. unfold year_chars.
  destruct (N.ltb_spec y 10); [lia|]. destruct (N.ltb_spec y 100); [lia|].
  destruct (N.ltb_spec y 1000); [lia|]. reflexivity.
Qed.

Lemma strptime_strftime t :
  valid_datetime t = true → 1000 ≤ year t →
  strptime_timestamp (strftime t) = Some t.
Proof.
  intros Hvalid Hyear.
  pose proof (valid_datetime_bounds t Hvalid)
    as (Hy1 & Hy2 & Hm1 & Hm2 & Hd1 & Hd2 & Hh & Hmi & Hs).
  unfold strptime_timestamp, full_match, strftime.
  rewrite year_chars_four by done.
  rewrite list_ascii_of_string_of_list_ascii.
  assert (Hhead : head (re_timestamp
    (pad4 (year t) ++ "-"%char :: pad2 (month t) ++ "-"%char ::
     pad2 (day t) ++ " "%char :: pad2 (hour t) ++ ":"%char ::
     pad2 (minute t) ++ ":"%char :: pad2 (second t) ++ []))
    = Some (t, [])).
  { unfold re_timestamp.
    eapply head_bind.
    - unfold re_date.
      eapply head_bind; [by apply re_Y_pad4|].
      eapply head_bind; [apply re_lit_head|].
      eapply head_bind; [by apply re_m_pad2|].
      eapply head_bind; [apply re_lit_head|].
      eapply head_bind; [by apply re_dd_pad2|].
      reflexivity.
    - eapply head_bind; [apply re_spaces_plus_pad2; lia|].
      eapply head_bind; [by apply re_H_pad2|].
      eapply head_bind; [apply re_lit_head|].
      eapply head_bind; [by apply re_M_pad2|].
      eapply head_bind; [apply re_lit_head|].
      eapply head_bind; [by apply re_S_pad2|].
      cbn. by destruct t. }
  rewrite app_nil_r in Hhead.
  destruct (re_timestamp _) as [|[t' r] tl]; [done|].
  injection Hhead as -> ->. by rewrite Hvalid.
Qed.

(** A bound is met by its own instant: the comparison is inclusive. *)
Lemma dt_le_refl (t : datetime) : dt_le t t = true.
Proof.
  unfold dt_le, fields. cbn [lex_le]. by rewrite !N.ltb_irrefl.
Qed.

Lemma strptime_date_midnight (v : string) (d : datetime) :
  strptime_date v = Some d →
  hour d = 0 ∧ minute d = 0 ∧ second d = 0
  ∧ valid_date (year d) (month d) (day d) = true.
Proof.
  unfold strptime_date. intros H.
  destruct (full_match re_date v) as [[[y m] dd]|]; [|done].
  destruct (valid_date y m dd) eqn:Hvalid; [|done].
  injection H as <-. done.
Qed.

End StrptimeFacts.


Import StrptimeFacts.

(** ** Facts about the instants *)

Lemma strptime_timestamp_valid (v : string) (t : datetime) :
  strptime_timestamp v = Some t → valid_datetime t = true.
Proof.
  unfold strptime_timestamp.
  destruct (full_match re_timestamp v) as [t'|]; [|done].
  destruct (valid_datetime t') eqn:Hvalid; [|done]. by intros [= <-].
Qed.

Lemma days_before_year_succ (y : N) :
  (1 ≤ y)%N →
  days_before_year (y + 1) = (days_before_year y + year_length y)%Z.
Proof.
  intros Hy. unfold days_before_year, year_length, is_leap.
  destruct (N.eqb_spec (y mod 4) 0), (N.eqb_spec (y mod 100) 0),
    (N.eqb_spec (y mod 400) 0); cbn [negb andb orb];
    zify; Z.to_euclidean_division_equations; lia.
Qed.

Lemma year_length_bounds (y : N) : (365 ≤ year_length y ≤ 366)%Z.
Proof. unfold year_length. destruct (is_leap y); lia. Qed.

Lemma days_before_year_mono (y1 y2 : N) :
  (1 ≤ y1)%N → (y1 < y2)%N →
  (days_before_year y1 + year_length y1 ≤ days_before_year y2)%Z.
Proof.
  intros H1 Hlt.
  assert (∃ k : nat, y2 = (y1 + 1 + N.of_nat k)%N) as [k ->]
    by (exists (N.to_nat (y2 - y1 - 1)); lia).
  clear Hlt. induction k as [|k IH].
  - rewrite N.add_0_r, days_before_year_succ by done. lia.
  - replace (y1 + 1 + N.of_nat (S k))%N with (y1 + 1 + N.of_nat k + 1)%N by lia.
    rewrite days_before_year_succ by lia.
    pose proof (year_length_bounds (y1 + 1 + N.of_nat k)). lia.
Qed.

Lemma month_cases (m : N) :
  (1 ≤ m)%N → (m ≤ 12)%N →
  m = 1%N ∨ m = 2%N ∨ m = 3%N ∨ m = 4%N ∨ m = 5%N ∨ m = 6%N ∨ m = 7%N
  ∨ m = 8%N ∨ m = 9%N ∨ m = 10%N ∨ m = 11%N ∨ m = 12%N.
Proof. lia. Qed.

Lemma days_before_month_end (y m : N) :
  (1 ≤ m)%N → (m ≤ 12)%N →
  (0 ≤ days_before_month y m
   ∧ days_before_month y m + Z.of_N (days_in_month y m) ≤ year_length y)%Z.
Proof.
  intros H1 H12. unfold days_before_month, days_in_month, year_length.
  destruct (month_cases m H1 H12) as [->|[->|[->|[->|[->|[->|[->|[->|[->|[->|[->| ->]]]]]]]]]]];
    destruct (is_leap y); cbn; lia.
Qed.

Lemma days_before_month_mono (y m1 m2 : N) :
  (1 ≤ m1)%N → (m1 < m2)%N → (m2 ≤ 12)%N →
  (days_before_month y m1 + Z.of_N (days_in_month y m1)
   ≤ days_before_month y m2)%Z.
Proof.
  intros H1 Hlt H12. unfold days_before_month, days_in_month.
  destruct (month_cases m1 H1 ltac:(lia)) as [->|[->|[->|[->|[->|[->|[->|[->|[->|[->|[->| ->]]]]]]]]]]];
    destruct (month_cases m2 ltac:(lia) H12) as [->|[->|[->|[->|[->|[->|[->|[->|[->|[->|[->| ->]]]]]]]]]]];
    try lia; destruct (is_leap y); cbn; lia.
Qed.

Lemma valid_date_bounds (y m d : N) :
  valid_date y m d = true →
  (1 ≤ y ∧ 1 ≤ m ∧ m ≤ 12 ∧ 1 ≤ d ∧ d ≤ days_in_month y m)%N.
Proof.
  unfold valid_date. rewrite !andb_true_iff, !N.leb_le. tauto.
Qed.

(** The day number grows with the date, read year first. *)
Lemma toordinal_order (y1 m1 d1 y2 m2 d2 : N) :
  valid_date y1 m1 d1 = true → valid_date y2 m2 d2 = true →
  ((y1 < y2)%N → toordinal y1 m1 d1 < toordinal y2 m2 d2)%Z
  ∧ (y1 = y2 → (m1 < m2)%N → toordinal y1 m1 d1 < toordinal y2 m2 d2)%Z
  ∧ (y1 = y2 → m1 = m2 →
     toordinal y1 m1 d1 - toordinal y2 m2 d2 = Z.of_N d1 - Z.of_N d2)%Z.
Proof.
  intros (Hy1 & Hm1 & Hm1' & Hd1 & Hd1')%valid_date_bounds
         (Hy2 & Hm2 & Hm2' & Hd2 & Hd2')%valid_date_bounds.
  unfold toordinal.
  pose proof (days_before_month_end y1 m1 Hm1 Hm1') as [_ Hend1].
  pose proof (days_before_month_end y2 m2 Hm2 Hm2') as [Hpos2 _].
  split; [|split].
  - intros Hlt. pose proof (days_before_year_mono y1 y2 Hy1 Hlt). lia.
  - intros <- Hlt.
    pose proof (days_before_month_mono y1 m1 m2 Hm1 Hlt Hm2'). lia.
  - intros <- <-. lia.
Qed.

(** [datetime.__le__] is the order of the instants. *)
Lemma dt_le_instant (a b : datetime) :
  valid_datetime a = true → valid_datetime b = true →
  dt_le a b = true ↔ (instant a ≤ instant b)%Z.
Proof.
  intros Ha Hb.
  pose proof (valid_datetime_bounds a Ha) as (_ & _ & _ & _ & _ & _ & Hha & Hma & Hsa).
  pose proof (valid_datetime_bounds b Hb) as (_ & _ & _ & _ & _ & _ & Hhb & Hmb & Hsb).
  unfold valid_datetime in Ha, Hb.
  apply andb_true_iff in Ha as [Ha _], Hb as [Hb _].
  pose proof (toordinal_order _ _ _ _ _ _ Ha Hb) as (Hab1 & Hab2 & Hab3).
  pose proof (toordinal_order _ _ _ _ _ _ Hb Ha) as (Hba1 & Hba2 & _).
  unfold instant, day_start, dt_le, fields. cbn [lex_le].
  set (oa := toordinal (year a) (month a) (day a)) in *.
  set (ob := toordinal (year b) (month b) (day b)) in *.
  destruct (N.ltb_spec (year a) (year b)); [split; [lia|done]|].
  destruct (N.ltb_spec (year b) (year a)); [split; [done|lia]|].
  destruct (N.ltb_spec (month a) (month b)); [split; [lia|done]|].
  destruct (N.ltb_spec (month b) (month a)); [split; [done|lia]|].
  destruct (N.ltb_spec (day a) (day b)); [split; [lia|done]|].
  destruct (N.ltb_spec (day b) (day a)); [split; [done|lia]|].
  destruct (N.ltb_spec (hour a) (hour b)); [split; [lia|done]|].
  destruct (N.ltb_spec (hour b) (hour a)); [split; [done|lia]|].
  destruct (N.ltb_spec (minute a) (minute b)); [split; [lia|done]|].
  destruct (N.ltb_spec (minute b) (minute a)); [split; [done|lia]|].
  destruct (N.ltb_spec (second a) (second b)); [split; [lia|done]|].
  destruct (N.ltb_spec (second b) (second a)); [split; [done|lia]|].
  split; [lia|done].
Qed.

(** A date read by [%Y-%m-%d] is the midnight that starts its day, so
    comparing with it is comparing with [day_start]. *)
Lemma dt_le_from_date (v : string) (s t : datetime) :
  strptime_date v = Some s → valid_datetime t = true →
  dt_le s t = (day_start s <=? instant t)%Z.
Proof.
  intros (Hh & Hm & Hs & Hdate)%strptime_date_midnight Ht.
  assert (valid_datetime s = true) as Hvalid
    by (unfold valid_datetime; rewrite Hdate, Hh, Hm, Hs; reflexivity).
  assert (instant s = day_start s) as Hstart
    by (unfold instant; rewrite Hh, Hm, Hs; lia).
  apply Bool.eq_iff_eq_true.
  rewrite (dt_le_instant s t Hvalid Ht), Z.leb_le, Hstart. done.
Qed.

Lemma dt_le_to_date (v : string) (e t : datetime) :
  strptime_date v = Some e → valid_datetime t = true →
  dt_le t e = (instant t <=? day_start e)%Z.
Proof.
  intros (Hh & Hm & Hs & Hdate)%strptime_date_midnight Ht.
  assert (valid_datetime e = true) as Hvalid
    by (unfold valid_datetime; rewrite Hdate, Hh, Hm, Hs; reflexivity).
  assert (instant e = day_start e) as Hstart
    by (unfold instant; rewrite Hh, Hm, Hs; lia).
  apply Bool.eq_iff_eq_true.
  rewrite (dt_le_instant t e Ht Hvalid), Z.leb_le, Hstart. done.
Qed.

(** ** Facts about the date filter *)

Section DateFilterFacts.

Implicit Types query_params : gmap string (list string).
Implicit Types reviews : list review.
Implicit Types filtered_reviews : list nat.

Lemma parse_qs_shaped_lookup query_params (k : string) :
  parse_qs_shaped query_params → query_params !! k ≠ Some [].
Proof. intros Hshape Hk. by apply (Hshape k [] Hk). Qed.

Lemma date_comprehension_ok reviews filtered_reviews start_date end_date :
  Forall (fun i => parseable (reviews !!! i)) filtered_reviews →
  date_comprehension reviews filtered_reviews start_date end_date
  = Ok (filter (fun i => kept reviews start_date end_date i)
          filtered_reviews).
Proof.
  intros Hparse.
  assert (Hstep : ∀ f : datetime → bool,
    (∀ t, f t = in_range start_date end_date t) →
    rfilter (fun i => t ← review_time reviews i; Ok (f t)) filtered_reviews
    = Ok (filter (fun i => kept reviews start_date end_date i)
            filtered_reviews)).
  { intros f Hf. apply rfilter_ok.
    eapply Forall_impl; [exact Hparse|]. intros i [t Ht].
    unfold review_time, kept. rewrite Ht. cbn. by rewrite Hf. }
  destruct start_date as [s|], end_date as [e|]; cbn [date_comprehension].
  - by apply (Hstep (fun t => dt_le s t && dt_le t e)).
  - apply (Hstep (fun t => dt_le s t)). intros t.
    unfold in_range. cbn. by rewrite andb_true_r.
  - by apply (Hstep (fun t => dt_le t e)).
  - f_equal. symmetry. apply filter_all.
    eapply Forall_impl; [exact Hparse|]. intros i [t Ht].
    unfold kept. by rewrite Ht.
Qed.

Lemma date_comprehension_none reviews filtered_reviews :
  date_comprehension reviews filtered_reviews None None = Ok filtered_reviews.
Proof. reflexivity. Qed.

Lemma date_filter_kept reviews filtered_reviews query_params
    (start_date end_date : option datetime) :
  bound query_params "start_date" start_date →
  bound query_params "end_date" end_date →
  Forall (fun i => parseable (reviews !!! i)) filtered_reviews →
  filter_by_date_range reviews filtered_reviews query_params
  = Ok (filter (fun i => kept reviews start_date end_date i)
          filtered_reviews).
Proof.
  intros Hstart Hend Hparse. unfold filter_by_date_range.
  destruct start_date as [s|], end_date as [e|]; cbn in Hstart, Hend.
  - destruct Hstart as (v & [vs ->] & Hv), Hend as (w & [ws ->] & Hw).
    run_binds. rewrite Hv. run_binds. rewrite Hw.
    by apply date_comprehension_ok.
  - destruct Hstart as (v & [vs ->] & Hv). rewrite Hend.
    run_binds. rewrite Hv. by apply date_comprehension_ok.
  - destruct Hend as (w & [ws ->] & Hw). rewrite Hstart.
    run_binds. rewrite Hw. by apply date_comprehension_ok.
  - rewrite Hstart, Hend. by apply date_comprehension_ok.
Qed.

(** The test of the comprehensions is the test on instants. *)
Lemma kept_within reviews query_params (start_date end_date : option datetime)
    (i : nat) :
  bound query_params "start_date" start_date →
  bound query_params "end_date" end_date →
  kept reviews start_date end_date i
  = within start_date end_date (reviews !!! i).
Proof.
  intros Hstart Hend. unfold kept, within, in_range.
  destruct (strptime_timestamp _) as [t|] eqn:Ht; [|done].
  apply strptime_timestamp_valid in Ht. f_equal.
  - destruct start_date as [s|]; [|done]. destruct Hstart as (v & _ & Hv).
    cbn [from_option]. by eapply dt_le_from_date.
  - destruct end_date as [e|]; [|done]. destruct Hend as (w & _ & Hw).
    cbn [from_option]. by eapply dt_le_to_date.
Qed.

(** C4: with each supplied date parseable, the date filter keeps exactly
    the reviews whose timestamp, as an instant in seconds, is at or after
    the midnight that starts the start date (when given) and at or before
    the midnight that starts the end date (when given): both ends are
    included, the comparison is to the second, and a review later on the
    end date is left out. *)
Theorem date_filter_inclusive_midnight reviews filtered_reviews query_params
    (start_date end_date : option datetime) :
  bound query_params "start_date" start_date →
  bound query_params "end_date" end_date →
  Forall (fun i => parseable (reviews !!! i)) filtered_reviews →
  filter_by_date_range reviews filtered_reviews query_params
  = Ok (filter (fun i => within start_date end_date (reviews !!! i))
          filtered_reviews)
  ∧ ∀ d, start_date = Some d ∨ end_date = Some d →
         (hour d = 0 ∧ minute d = 0 ∧ second d = 0)%N.
Proof.
  intros Hstart Hend Hparse. split.
  - rewrite (date_filter_kept _ _ _ _ _ Hstart Hend Hparse). f_equal.
    apply filter_agree, Forall_forall. intros i _.
    by rewrite (kept_within _ _ _ _ i Hstart Hend).
  - intros d [->| ->]; cbn in Hstart, Hend.
    + destruct Hstart as (v & _ & Hv).
      apply strptime_date_midnight in Hv. tauto.
    + destruct Hend as (v & _ & Hv).
      apply strptime_date_midnight in Hv. tauto.
Qed.

(** C1, as the code has it: a supplied date that fails to parse switches
    the date filter off altogether.  The sequence comes back unchanged, as
    if both date parameters were absent; a well-formed bound next to the
    malformed one is not applied. *)
Theorem malformed_date_skips_date_filter reviews filtered_reviews
    query_params :
  parse_qs_shaped query_params →
  malformed query_params "start_date" ∨ malformed query_params "end_date" →
  filter_by_date_range reviews filtered_reviews query_params
  = Ok filtered_reviews
  ∧ filter_by_date_range reviews filtered_reviews
      (delete "start_date" (delete "end_date" query_params))
    = Ok filtered_reviews.
Proof.
  intros Hshape Hbad. split.
  - unfold filter_by_date_range.
    destruct Hbad as [(v & [vs Hv] & Hnone)|(v & [vs Hv] & Hnone)].
    + rewrite Hv. run_binds. by rewrite Hnone.
    + rewrite Hv.
      destruct (query_params !! "start_date") as [[|w ws]|] eqn:Hs.
      * by destruct (parse_qs_shaped_lookup _ _ Hshape Hs).
      * run_binds. destruct (strptime_date w); [|done]. by rewrite Hnone.
      * run_binds. by rewrite Hnone.
  - unfold filter_by_date_range.
    rewrite lookup_delete_eq.
    rewrite lookup_delete_ne, lookup_delete_eq by done.
    reflexivity.
Qed.

Lemma filter_by_date_range_no_raise reviews filtered_reviews query_params :
  parse_qs_shaped query_params →
  Forall (fun i => parseable (reviews !!! i)) filtered_reviews →
  ∃ out, filter_by_date_range reviews filtered_reviews query_params = Ok out.
Proof.
  intros Hshape Hparse. unfold filter_by_date_range.
  pose proof (date_comprehension_ok reviews filtered_reviews) as Hok.
  destruct (query_params !! "start_date") as [[|v vs]|] eqn:Hs;
    [by destruct (parse_qs_shaped_lookup _ _ Hshape Hs)| |];
    destruct (query_params !! "end_date") as [[|w ws]|] eqn:He;
    try (by destruct (parse_qs_shaped_lookup _ _ Hshape He)); run_binds;
    repeat case_match; eauto.
Qed.

End DateFilterFacts.

(** ** Facts about the store *)

Section ServerFacts.

Variable polarity_scores : string → scores.

Implicit Types query_params parsed_body : gmap string (list string).
Implicit Types reviews : list review.
Implicit Types filtered_reviews : list nat.

Abbreviation analyze_sentiment := (analyze_sentiment polarity_scores).
Abbreviation scored := (scored polarity_scores).
Abbreviation score := (score polarity_scores).
Abbreviation ranking := (ranking polarity_scores).
Abbreviation attach_sentiment := (attach_sentiment polarity_scores).
Abbreviation rank := (rank polarity_scores).
Abbreviation handle_get := (handle_get polarity_scores).
Abbreviation handle_post := (handle_post polarity_scores).
Abbreviation call := (call polarity_scores).
Abbreviation serve := (serve polarity_scores).

Lemma scored_idemp r : scored (scored r) = scored r.
Proof. reflexivity. Qed.

Lemma attach_sentiment_cons reviews i filtered_reviews :
  attach_sentiment reviews (i :: filtered_reviews)
  = attach_sentiment (alter scored i reviews) filtered_reviews.
Proof. reflexivity. Qed.

Lemma attach_sentiment_lookup reviews filtered_reviews i :
  attach_sentiment reviews filtered_reviews !! i
  = (fun r => if decide (i ∈ filtered_reviews) then scored r else r)
      <$> reviews !! i.
Proof.
  revert reviews.
  induction filtered_reviews as [|j l IH]; intros reviews.
  - cbn. by destruct (reviews !! i).
  - rewrite attach_sentiment_cons, IH, list_lookup_alter.
    destruct (decide (j = i)) as [->|Hne].
    + destruct (reviews !! i) as [r|]; [|reflexivity]. cbn.
      rewrite (decide_True (P := i ∈ i :: l)) by left.
      by case_decide.
    + destruct (reviews !! i) as [r|]; [|reflexivity]. cbn.
      destruct (decide (i ∈ l)) as [Hl|Hl],
        (decide (i ∈ j :: l)) as [Hjl|Hjl]; try reflexivity.
      * destruct Hjl. by right.
      * apply elem_of_cons in Hjl as [->|Hjl]; done.
Qed.

Lemma length_attach_sentiment reviews filtered_reviews :
  List.length (attach_sentiment reviews filtered_reviews)
  = List.length reviews.
Proof.
  revert reviews. induction filtered_reviews as [|j l IH]; intros reviews.
  - reflexivity.
  - by rewrite attach_sentiment_cons, IH, length_alter.
Qed.

Lemma attach_sentiment_total reviews filtered_reviews i :
  i < List.length reviews → i ∈ filtered_reviews →
  attach_sentiment reviews filtered_reviews !!! i = scored (reviews !!! i).
Proof.
  intros Hi Hin. apply list_lookup_total_correct.
  rewrite attach_sentiment_lookup, (list_lookup_lookup_total_lt reviews i Hi).
  cbn. by rewrite decide_True.
Qed.

Lemma rank_keys reviews filtered_reviews :
  Forall (fun i => i < List.length reviews) filtered_reviews →
  rmapM (sort_key (attach_sentiment reviews filtered_reviews))
    filtered_reviews
  = Ok (score reviews <$> filtered_reviews).
Proof.
  intros Hvalid. apply rmapM_ok, Forall_forall. intros i Hi.
  rewrite Forall_forall in Hvalid. unfold sort_key.
  by rewrite attach_sentiment_total by auto.
Qed.

Lemma rank_ok reviews filtered_reviews :
  Forall (fun i => i < List.length reviews) filtered_reviews →
  rank reviews filtered_reviews
  = (attach_sentiment reviews filtered_reviews,
     Ok ((list_sort true
            ((fun i => (score reviews i, i)) <$> filtered_reviews)).*2)).
Proof.
  intros Hvalid. unfold rank. rewrite rank_keys by done. cbn.
  by rewrite zip_fmap_self.
Qed.

Lemma keyed_snd reviews filtered_reviews :
  ((fun i => (score reviews i, i)) <$> filtered_reviews).*2
  = filtered_reviews.
Proof.
  induction filtered_reviews as [|i l IH]; [reflexivity|].
  cbn. by rewrite IH.
Qed.

Lemma keyed_sorted_elem reviews filtered_reviews (x : Z * nat) :
  x ∈ list_sort true ((fun i => (score reviews i, i)) <$> filtered_reviews) →
  x.1 = score reviews x.2.
Proof.
  rewrite list_sort_reverse_perm.
  intros (i & -> & _)%list_elem_of_fmap. reflexivity.
Qed.

(** C5: the ranking step returns the filtered sequence sorted by compound
    score in descending order, and the reviews of one compound score keep
    the relative order they had in the filtered sequence. *)
Theorem rank_sorts_descending_stably reviews filtered_reviews :
  Forall (fun i => i < List.length reviews) filtered_reviews →
  ∃ ranked,
    (rank reviews filtered_reviews).2 = Ok ranked
    ∧ ranked ≡ₚ filtered_reviews
    ∧ StronglySorted (fun i j => (score reviews j ≤ score reviews i)%Z) ranked
    ∧ ∀ c : Z,
        filter (fun i => score reviews i = c) ranked
        = filter (fun i => score reviews i = c) filtered_reviews.
Proof.
  intros Hvalid. rewrite rank_ok by done. cbn [snd].
  set (pairs := (fun i => (score reviews i, i)) <$> filtered_reviews).
  exists (list_sort true pairs).*2. split; [reflexivity|].
  split; [|split].
  - rewrite list_sort_reverse_perm. unfold pairs. by rewrite keyed_snd.
  - eapply StronglySorted_fmap_on; [|apply list_sort_reverse_descending].
    intros x y Hx%keyed_sorted_elem Hy%keyed_sorted_elem.
    unfold descending. cbn. by rewrite Hx, Hy.
  - intros c.
    rewrite filter_fmap_comm.
    rewrite (filter_agree _ (fun x : Z * nat => x.1 = c)).
    + rewrite list_sort_reverse_stable. unfold pairs.
      rewrite filter_fmap_comm. apply keyed_snd.
    + apply Forall_forall. intros x Hx%keyed_sorted_elem.
      by rewrite Hx.
Qed.

(** *** The GET branch *)

Lemma rfilter_elem_of {A} (p : A → result bool) (l out : list A) (x : A) :
  rfilter p l = Ok out → x ∈ out → x ∈ l.
Proof.
  revert out. induction l as [|y l IH]; intros out; cbn [rfilter].
  - intros [= <-]. done.
  - destruct (p y) as [b|]; [|done]. run_binds.
    destruct (rfilter p l) as [ys|]; [|done]. run_binds.
    intros [= <-] Hx. destruct b.
    + apply elem_of_cons in Hx as [->|Hx]; [left|right; eauto].
    + right. eauto.
Qed.

Lemma filter_by_date_range_elem_of reviews filtered_reviews query_params
    out i :
  filter_by_date_range reviews filtered_reviews query_params = Ok out →
  i ∈ out → i ∈ filtered_reviews.
Proof.
  assert (Hcomp : ∀ s e,
    date_comprehension reviews filtered_reviews s e = Ok out →
    i ∈ out → i ∈ filtered_reviews).
  { intros [s|] [e|]; cbn [date_comprehension];
      try apply rfilter_elem_of. by intros [= <-]. }
  unfold filter_by_date_range.
  destruct (query_params !! "start_date") as [[|v vs]|];
    destruct (query_params !! "end_date") as [[|w ws]|];
    run_binds; try done; repeat case_match;
    first [ by intros [= <-] | apply Hcomp ].
Qed.

Lemma get_filter_valid reviews query_params filtered_reviews :
  get_filter reviews query_params = Ok filtered_reviews →
  Forall (fun i => i < List.length reviews) filtered_reviews.
Proof.
  unfold get_filter. intros Hget. apply Forall_forall. intros i Hi.
  apply rbind_ok in Hget as (located & Hloc & Hget).
  apply rbind_ok in Hget as (dated & Hdate & Hget).
  assert (i ∈ dated) as Hdated.
  { destruct (query_params !! "location") as [[|v vs]|]; try done.
    - run_binds in Hget. case_decide; injection Hget as <-; [done|].
      by apply elem_of_nil in Hi.
    - by injection Hget as <-. }
  eapply filter_by_date_range_elem_of in Hdated; [|exact Hdate].
  assert (i ∈ seq 0 (List.length reviews)) as Hseq.
  { destruct (query_params !! "location") as [[|v vs]|]; try done.
    - run_binds in Hloc. injection Hloc as <-.
      by apply list_elem_of_filter in Hdated as [_ ?].
    - by injection Hloc as <-. }
  apply elem_of_seq in Hseq. lia.
Qed.

Lemma ranking_perm reviews filtered_reviews :
  ranking reviews filtered_reviews ≡ₚ filtered_reviews.
Proof.
  unfold ranking. rewrite list_sort_reverse_perm. by rewrite keyed_snd.
Qed.

Lemma handle_get_ok reviews query_params filtered_reviews :
  get_filter reviews query_params = Ok filtered_reviews →
  handle_get reviews query_params
  = (attach_sentiment reviews filtered_reviews,
     Ok (mkResponse "200 OK"
           (PReviews ((fun i => attach_sentiment reviews filtered_reviews !!! i)
                        <$> ranking reviews filtered_reviews)))).
Proof.
  intros Hget. unfold handle_get. rewrite Hget.
  rewrite rank_ok by (by eapply get_filter_valid). reflexivity.
Qed.

Lemma handle_get_raise reviews query_params e :
  get_filter reviews query_params = Raise e →
  handle_get reviews query_params = (reviews, Raise e).
Proof. intros Hget. unfold handle_get. by rewrite Hget. Qed.

(** A dict that already carries the score of its body is left as it is by
    every request. *)
Lemma handle_get_keeps_scored reviews query_params i r :
  reviews !! i = Some r → scored r = r →
  (handle_get reviews query_params).1 !! i = Some r.
Proof.
  intros Hi Hr.
  destruct (get_filter reviews query_params) as [fr|e] eqn:Hget.
  - rewrite (handle_get_ok _ _ _ Hget). cbn [fst].
    rewrite attach_sentiment_lookup, Hi. cbn.
    case_decide; by rewrite ?Hr.
  - by rewrite (handle_get_raise _ _ _ Hget).
Qed.

Lemma handle_post_keeps reviews parsed_body uuid now i r :
  reviews !! i = Some r →
  (handle_post reviews parsed_body uuid now).1 !! i = Some r.
Proof.
  intros Hi. unfold handle_post.
  repeat case_match; cbn [fst]; try done.
  by apply lookup_app_l_Some.
Qed.

Lemma serve_keeps_scored reviews reqs i r :
  reviews !! i = Some r → scored r = r → serve reviews reqs !! i = Some r.
Proof.
  intros Hi Hr. revert reviews Hi.
  induction reqs as [|req reqs IH]; intros reviews Hi; [done|].
  cbn. apply IH. destruct req as [q|pb uuid now]; cbn [call].
  - by apply handle_get_keeps_scored.
  - by apply handle_post_keeps.
Qed.

(** A stored review shows up in the answer to a query without dates that
    names no location or names its own, allowed, one. *)
Lemma handle_get_shows reviews query_params n r :
  reviews !! n = Some r →
  query_params !! "start_date" = None → query_params !! "end_date" = None →
  query_params !! "location" = None
  ∨ (supplied query_params "location" (Location r)
     ∧ Location r ∈ allowed_locations) →
  ∃ store out,
    handle_get reviews query_params
    = (store, Ok (mkResponse "200 OK" (PReviews out)))
    ∧ scored r ∈ out.
Proof.
  intros Hn Hs He Hloc.
  pose proof (lookup_lt_Some _ _ _ Hn) as Hlt.
  assert (Hseq : n ∈ seq 0 (List.length reviews)) by (apply elem_of_seq; lia).
  assert (∃ fr, get_filter reviews query_params = Ok fr
                ∧ n ∈ fr) as (fr & Hget & Hin).
  { unfold get_filter, filter_by_date_range. rewrite Hs, He.
    destruct Hloc as [Hnone|[[vs Hv] Hallowed]].
    - rewrite Hnone. run_binds. rewrite date_comprehension_none.
      run_binds. eauto.
    - rewrite Hv. run_binds. rewrite date_comprehension_none.
      run_binds. rewrite decide_True by done.
      eexists; split; [reflexivity|].
      apply list_elem_of_filter. split; [|done].
      by rewrite (list_lookup_total_correct _ _ _ Hn). }
  rewrite (handle_get_ok _ _ _ Hget). do 2 eexists. split; [reflexivity|].
  apply list_elem_of_fmap. exists n. split.
  - rewrite attach_sentiment_total by done.
    by rewrite (list_lookup_total_correct _ _ _ Hn).
  - by rewrite ranking_perm.
Qed.

Lemma store_parseable reviews filtered_reviews :
  Forall parseable reviews →
  Forall (fun i => i < List.length reviews) filtered_reviews →
  Forall (fun i => parseable (reviews !!! i)) filtered_reviews.
Proof.
  intros Hparse Hvalid. eapply Forall_impl; [exact Hvalid|]. intros i Hi.
  cbn beta. eapply Forall_lookup_1; [exact Hparse|].
  by apply list_lookup_lookup_total_lt.
Qed.

(** C3: a GET whose location is not in the allow-list answers with the
    empty array, whatever the store holds under that location; the store
    is the one of the data model, with parseable timestamps. *)
Theorem unknown_location_gets_nothing reviews query_params location :
  parse_qs_shaped query_params →
  supplied query_params "location" location →
  location ∉ allowed_locations →
  Forall parseable reviews →
  handle_get reviews query_params
  = (reviews, Ok (mkResponse "200 OK" (PReviews []))).
Proof.
  intros Hshape [vs Hv] Hunknown Hparse.
  assert (get_filter reviews query_params = Ok []) as Hget.
  { unfold get_filter. rewrite Hv. run_binds.
    edestruct filter_by_date_range_no_raise as [out ->]; [exact Hshape| |].
    - apply store_parseable; [exact Hparse|].
      apply Forall_forall. intros i [_ Hi%elem_of_seq]%list_elem_of_filter.
      lia.
    - run_binds. by rewrite decide_False. }
  by rewrite (handle_get_ok _ _ _ Hget).
Qed.

(** C2, at a store with one seeded row: the GET loop writes the sentiment
    into the dict of the store, which the list copy shares. *)
Theorem get_writes_sentiment_into_store :
  (handle_get [seeded_review] ∅).1 = [scored seeded_review]
  ∧ (handle_get [seeded_review] ∅).1 ≠ [seeded_review].
Proof. split; [reflexivity|discriminate]. Qed.

(** What a GET does leave alone: the length of the store, hence its order,
    and every field of every dict but [sentiment]. *)
Lemma handle_get_frame reviews query_params i :
  (fun r => (ReviewId r, ReviewBody r, Location r, Timestamp r))
    <$> (handle_get reviews query_params).1 !! i
  = (fun r => (ReviewId r, ReviewBody r, Location r, Timestamp r))
      <$> reviews !! i.
Proof.
  destruct (get_filter reviews query_params) as [fr|e] eqn:Hget.
  - rewrite (handle_get_ok _ _ _ Hget). cbn [fst].
    rewrite attach_sentiment_lookup.
    destruct (reviews !! i) as [r|]; [|done]. cbn. by case_decide.
  - by rewrite (handle_get_raise _ _ _ Hget).
Qed.

(** *** The POST branch *)

(** C7: a form without [ReviewBody] or without [Location] is answered
    with 400 and the error about the required fields. *)
Theorem post_missing_field reviews parsed_body uuid now :
  parsed_body !! "ReviewBody" = None ∨ parsed_body !! "Location" = None →
  handle_post reviews parsed_body uuid now
  = (reviews,
     Ok (mkResponse "400 Bad Request"
           (PError "ReviewBody and Location are required"))).
Proof.
  unfold handle_post. intros [-> | ->]; [reflexivity|].
  destruct (parsed_body !! "ReviewBody") as [[|v vs]|]; reflexivity.
Qed.

(** C8: a form with both fields whose location is not literally one of
    the allow-list is answered with 400 and [Invalid location provided];
    the store stays as it was. *)
Theorem post_invalid_location reviews parsed_body review_body location
    uuid now :
  supplied parsed_body "ReviewBody" review_body →
  supplied parsed_body "Location" location →
  location ∉ allowed_locations →
  handle_post reviews parsed_body uuid now
  = (reviews,
     Ok (mkResponse "400 Bad Request" (PError "Invalid location provided"))).
Proof.
  intros [bs Hbody] [ls Hloc] Hunknown. unfold handle_post.
  rewrite Hbody, Hloc. cbn [from_option]. run_binds.
  by rewrite decide_False.
Qed.

(** C10: a POST answered with 400 leaves the store as it was. *)
Theorem post_rejected_store_unchanged reviews parsed_body uuid now resp :
  (handle_post reviews parsed_body uuid now).2 = Ok resp →
  status resp = "400 Bad Request" →
  (handle_post reviews parsed_body uuid now).1 = reviews.
Proof.
  unfold handle_post.
  repeat case_match; cbn [fst snd]; try done.
  intros [= <-]. discriminate.
Qed.

Lemma handle_post_created reviews parsed_body review_body location uuid now :
  supplied parsed_body "ReviewBody" review_body →
  supplied parsed_body "Location" location →
  location ∈ allowed_locations →
  handle_post reviews parsed_body uuid now
  = (reviews ++ [created polarity_scores review_body location uuid now],
     Ok (mkResponse "201 Created"
           (PReview (created polarity_scores review_body location uuid now)))).
Proof.
  intros [bs Hbody] [ls Hloc] Hallowed. unfold handle_post.
  rewrite Hbody, Hloc. cbn [from_option]. run_binds.
  by rewrite decide_True.
Qed.

Lemma handle_post_201 reviews parsed_body uuid now store r :
  handle_post reviews parsed_body uuid now
  = (store, Ok (mkResponse "201 Created" (PReview r))) →
  store = reviews ++ [r] ∧ scored r = r.
Proof.
  unfold handle_post. repeat case_match; try done.
  intros [= <- <-]. done.
Qed.

(** C6: a form with both fields and an allowed location is answered with
    201 and the new review: the submitted location as it came, the id and
    the clock reading of the server, the score of the body.  The timestamp
    reads back as the clock reading under [%Y-%m-%d %H:%M:%S].  The review
    is appended to the store, and from then on a GET without dates that
    names no location, or this one, returns it. *)
Theorem post_creates_visible_review reviews parsed_body review_body location
    uuid now :
  supplied parsed_body "ReviewBody" review_body →
  supplied parsed_body "Location" location →
  location ∈ allowed_locations →
  valid_datetime now = true → (1000 ≤ year now)%N →
  let new_review :=
    mkReview (Some uuid) review_body location (strftime now)
      (Some (analyze_sentiment review_body)) in
  handle_post reviews parsed_body uuid now
  = (reviews ++ [new_review],
     Ok (mkResponse "201 Created" (PReview new_review)))
  ∧ strptime_timestamp (Timestamp new_review) = Some now
  ∧ ∀ reqs query_params,
      query_params !! "start_date" = None →
      query_params !! "end_date" = None →
      query_params !! "location" = None
      ∨ supplied query_params "location" location →
      ∃ store out,
        handle_get (serve (reviews ++ [new_review]) reqs) query_params
        = (store, Ok (mkResponse "200 OK" (PReviews out)))
        ∧ new_review ∈ out.
Proof.
  intros Hbody Hloc Hallowed Hvalid Hyear new_review.
  split; [by apply handle_post_created|].
  split; [by apply strptime_strftime|].
  intros reqs query_params Hs He Hq.
  assert (serve (reviews ++ [new_review]) reqs !! List.length reviews
          = Some new_review) as Hstored.
  { apply serve_keeps_scored; [|done]. apply list_lookup_middle. done. }
  destruct (handle_get_shows _ query_params _ _ Hstored Hs He)
    as (store & out & Hget & Hin).
  - destruct Hq as [Hnone|Hsup]; [by left|by right].
  - eauto.
Qed.

(** C9: the review created by a successful POST stays in the store as the
    201 response showed it.  After any further requests the compound score
    computed from its stored body is the one of that response, a GET leaves
    the stored dict with that same sentiment, and wherever the ranking of a
    later GET places this dict, the response shows the created review. *)
Theorem created_sentiment_round_trip reviews parsed_body uuid now store
    new_review reqs query_params :
  handle_post reviews parsed_body uuid now
  = (store, Ok (mkResponse "201 Created" (PReview new_review))) →
  let n := List.length reviews in
  let later := serve store reqs in
  compound <$> sentiment new_review = Some (score later n)
  ∧ (handle_get later query_params).1 !! n = Some new_review
  ∧ ∀ resp, (handle_get later query_params).2 = Ok resp →
      ∃ ranked,
        body resp = PReviews ((fun i => (handle_get later query_params).1 !!! i) <$> ranked)
        ∧ ∀ k out, ranked !! k = Some n → body resp = PReviews out →
            out !! k = Some new_review.
Proof.
  intros [-> Hscored]%handle_post_201 n later.
  assert (later !! n = Some new_review) as Hlater.
  { apply serve_keeps_scored; [|done]. by apply list_lookup_middle. }
  split; [|split].
  - unfold score. rewrite (list_lookup_total_correct _ _ _ Hlater).
    by rewrite <- Hscored at 1.
  - by apply handle_get_keeps_scored.
  - intros resp Hresp.
    pose proof (handle_get_keeps_scored _ query_params _ _ Hlater Hscored)
      as Hkept.
    destruct (get_filter later query_params) as [fr|e] eqn:Hget.
    + rewrite (handle_get_ok _ _ _ Hget) in Hresp, Hkept |- *.
      cbn [fst snd] in *. injection Hresp as <-.
      exists (ranking later fr). split; [reflexivity|].
      intros k out Hk [= <-].
      rewrite list_lookup_fmap, Hk. cbn.
      by rewrite (list_lookup_total_correct _ _ _ Hkept).
    + by rewrite (handle_get_raise _ _ _ Hget) in Hresp.
Qed.

End ServerFacts.

(** ** The properties at sample requests *)

Lemma sample_queries_shaped :
  parse_qs_shaped malformed_start_query
  ∧ parse_qs_shaped unknown_location_query
  ∧ parse_qs_shaped january_sixth_query.
Proof. repeat split; apply (bool_decide_unpack _); vm_compute; exact I. Qed.

(** C1, as stated, fails: with a malformed start date the well-formed end
    date is not applied.  The review of 2021-01-05 passes the filter, and
    without the start date the end date 2020-12-31 removes it. *)
Lemma malformed_start_disables_end_bound :
  strptime_date "2021-13-45" = None
  ∧ is_Some (strptime_date "2020-12-31")
  ∧ filter_by_date_range [seeded_review] [0] malformed_start_query = Ok [0]
  ∧ filter_by_date_range [seeded_review] [0]
      (delete "start_date" malformed_start_query) = Ok []
  ∧ ¬ only_malformed_bound_dropped.
Proof.
  split; [reflexivity|]. split; [by eexists|].
  split; [reflexivity|]. split; [reflexivity|].
  intros Hclaim.
  specialize (Hclaim [seeded_review] [0] malformed_start_query "start_date").
  assert (Ok [0] = @Ok (list nat) []) as [=].
  apply Hclaim.
  - left.
  - exists "2021-13-45". split; [by eexists|reflexivity].
Qed.

Lemma malformed_date_skips_date_filter_witness :
  parse_qs_shaped malformed_start_query
  ∧ (malformed malformed_start_query "start_date"
     ∨ malformed malformed_start_query "end_date")
  ∧ filter_by_date_range [seeded_review] [0] malformed_start_query = Ok [0]
  ∧ filter_by_date_range [seeded_review] [0]
      (delete "start_date" (delete "end_date" malformed_start_query))
    = Ok [0].
Proof.
  assert (Hshape : parse_qs_shaped malformed_start_query)
    by (apply (bool_decide_unpack _); vm_compute; exact I).
  assert (Hbad : malformed malformed_start_query "start_date"
                 ∨ malformed malformed_start_query "end_date").
  { left. exists "2021-13-45". split; [by eexists|reflexivity]. }
  split; [exact Hshape|]. split; [exact Hbad|].
  exact (malformed_date_skips_date_filter [seeded_review] [0]
           malformed_start_query Hshape Hbad).
Defined.

Lemma unknown_location_gets_nothing_witness :
  parse_qs_shaped unknown_location_query
  ∧ supplied unknown_location_query "location" "Nowhere"
  ∧ ("Nowhere" ∉ allowed_locations)
  ∧ Forall parseable [seeded_review; nowhere_review]
  ∧ handle_get length_scorer [seeded_review; nowhere_review]
      unknown_location_query
    = ([seeded_review; nowhere_review],
       Ok (mkResponse "200 OK" (PReviews []))).
Proof.
  assert (Hshape : parse_qs_shaped unknown_location_query)
    by (apply (bool_decide_unpack _); vm_compute; exact I).
  assert (Hsup : supplied unknown_location_query "location" "Nowhere")
    by (exists []; reflexivity).
  assert (Hunknown : "Nowhere" ∉ allowed_locations)
    by (apply (bool_decide_unpack _); vm_compute; exact I).
  assert (Hparse : Forall parseable [seeded_review; nowhere_review])
    by (repeat constructor; eexists; vm_compute; reflexivity).
  repeat (split; [assumption|]).
  exact (unknown_location_gets_nothing length_scorer _ _ _
           Hshape Hsup Hunknown Hparse).
Defined.

Lemma date_filter_inclusive_midnight_witness :
  let day6 := mkDatetime 2021 1 6 0 0 0 in
  let store := [seeded_review; nowhere_review; midnight_review] in
  bound january_sixth_query "start_date" (Some day6)
  ∧ bound january_sixth_query "end_date" (Some day6)
  ∧ Forall (fun i => parseable (store !!! i)) [0; 1; 2]
  ∧ filter_by_date_range store [0; 1; 2] january_sixth_query
    = Ok (filter (fun i => within (Some day6) (Some day6) (store !!! i))
            [0; 1; 2])
  ∧ ∀ d, Some day6 = Some d ∨ Some day6 = Some d →
         (hour d = 0 ∧ minute d = 0 ∧ second d = 0)%N.
Proof.
  intros day6 store.
  assert (Hstart : bound january_sixth_query "start_date" (Some day6))
    by (exists "2021-01-06"; split; [exists []|]; reflexivity).
  assert (Hend : bound january_sixth_query "end_date" (Some day6))
    by (exists "2021-01-06"; split; [exists []|]; reflexivity).
  assert (Hparse : Forall (fun i => parseable (store !!! i)) [0; 1; 2])
    by (repeat constructor; eexists; vm_compute; reflexivity).
  repeat (split; [assumption|]).
  exact (date_filter_inclusive_midnight store [0; 1; 2] january_sixth_query
           (Some day6) (Some day6) Hstart Hend Hparse).
Defined.

(** The end date 2021-01-06 keeps the review of that midnight and drops the
    one of ten o'clock of the same day. *)
Example end_date_is_midnight :
  filter_by_date_range [seeded_review; nowhere_review; midnight_review]
    [0; 1; 2] january_sixth_query
  = Ok [2].
Proof. reflexivity. Qed.

Lemma rank_sorts_descending_stably_witness :
  let store := [nowhere_review; seeded_review; midnight_review] in
  Forall (fun i => i < List.length store) [0; 1; 2]
  ∧ ∃ ranked,
      (rank length_scorer store [0; 1; 2]).2 = Ok ranked
      ∧ ranked ≡ₚ [0; 1; 2]
      ∧ StronglySorted
          (fun i j => (score length_scorer store j
                       ≤ score length_scorer store i)%Z) ranked
      ∧ ∀ c : Z,
          filter (fun i => score length_scorer store i = c) ranked
          = filter (fun i => score length_scorer store i = c) [0; 1; 2].
Proof.
  intros store.
  assert (Hvalid : Forall (fun i => i < List.length store) [0; 1; 2])
    by (repeat constructor; simpl; lia).
  split; [exact Hvalid|].
  exact (rank_sorts_descending_stably length_scorer store [0; 1; 2] Hvalid).
Defined.

(** The two reviews of score 4 come first, in the order of the store. *)
Example rank_sample :
  (rank length_scorer [nowhere_review; seeded_review; midnight_review]
     [0; 1; 2]).2
  = Ok [1; 2; 0].
Proof. reflexivity. Qed.

Lemma post_missing_field_witness :
  ({[ "ReviewBody" := ["Great stay"] ]} : gmap string (list string))
    !! "Location" = None
  ∧ handle_post length_scorer [seeded_review]
      {[ "ReviewBody" := ["Great stay"] ]} "id-1" sample_now
    = ([seeded_review],
       Ok (mkResponse "400 Bad Request"
             (PError "ReviewBody and Location are required"))).
Proof.
  assert (Hnone : ({[ "ReviewBody" := ["Great stay"] ]}
                     : gmap string (list string)) !! "Location" = None)
    by reflexivity.
  split; [exact Hnone|].
  exact (post_missing_field length_scorer [seeded_review] _ "id-1" sample_now
           (or_intror Hnone)).
Defined.

Lemma post_invalid_location_witness :
  let form : gmap string (list string) :=
    {[ "ReviewBody" := ["Great stay"]; "Location" := ["denver, colorado"] ]} in
  supplied form "ReviewBody" "Great stay"
  ∧ supplied form "Location" "denver, colorado"
  ∧ ("denver, colorado" ∉ allowed_locations)
  ∧ handle_post length_scorer [seeded_review] form "id-1" sample_now
    = ([seeded_review],
       Ok (mkResponse "400 Bad Request" (PError "Invalid location provided"))).
Proof.
  intros form.
  assert (Hbody : supplied form "ReviewBody" "Great stay")
    by (exists []; reflexivity).
  assert (Hloc : supplied form "Location" "denver, colorado")
    by (exists []; reflexivity).
  assert (Hunknown : "denver, colorado" ∉ allowed_locations)
    by (apply (bool_decide_unpack _); vm_compute; exact I).
  repeat (split; [assumption|]).
  exact (post_invalid_location length_scorer [seeded_review] form _ _
           "id-1" sample_now Hbody Hloc Hunknown).
Defined.

Lemma post_rejected_store_unchanged_witness :
  let resp :=
    mkResponse "400 Bad Request"
      (PError "ReviewBody and Location are required") in
  (handle_post length_scorer [seeded_review] ∅ "id-1" sample_now).2 = Ok resp
  ∧ status resp = "400 Bad Request"
  ∧ (handle_post length_scorer [seeded_review] ∅ "id-1" sample_now).1
    = [seeded_review].
Proof.
  intros resp.
  assert (Hresp : (handle_post length_scorer [seeded_review] ∅ "id-1"
                     sample_now).2 = Ok resp) by reflexivity.
  assert (Hstatus : status resp = "400 Bad Request") by reflexivity.
  repeat (split; [assumption|]).
  exact (post_rejected_store_unchanged length_scorer [seeded_review] ∅ "id-1"
           sample_now resp Hresp Hstatus).
Defined.

Lemma post_creates_visible_review_witness :
  let new_review :=
    mkReview (Some "id-1") "Great stay" "Denver, Colorado"
      "2024-02-29 13:05:09" (Some (length_scorer "Great stay")) in
  supplied sample_form "ReviewBody" "Great stay"
  ∧ supplied sample_form "Location" "Denver, Colorado"
  ∧ ("Denver, Colorado" ∈ allowed_locations)
  ∧ valid_datetime sample_now = true
  ∧ (1000 ≤ year sample_now)%N
  ∧ handle_post length_scorer [seeded_review] sample_form "id-1" sample_now
    = ([seeded_review; new_review],
       Ok (mkResponse "201 Created" (PReview new_review)))
  ∧ strptime_timestamp (Timestamp new_review) = Some sample_now.
Proof.
  intros new_review.
  assert (Hbody : supplied sample_form "ReviewBody" "Great stay")
    by (exists []; reflexivity).
  assert (Hloc : supplied sample_form "Location" "Denver, Colorado")
    by (exists []; reflexivity).
  assert (Hallowed : "Denver, Colorado" ∈ allowed_locations)
    by (apply (bool_decide_unpack _); vm_compute; exact I).
  assert (Hvalid : valid_datetime sample_now = true) by reflexivity.
  assert (Hyear : (1000 ≤ year sample_now)%N) by (simpl; lia).
  repeat (split; [assumption|]).
  pose proof (post_creates_visible_review length_scorer [seeded_review]
                sample_form _ _ "id-1" sample_now Hbody Hloc Hallowed Hvalid
                Hyear) as (Hpost & Htime & _).
  split; [exact Hpost|exact Htime].
Defined.

Lemma created_sentiment_round_trip_witness :
  let new_review := created length_scorer "Great stay" "Denver, Colorado"
                      "id-1" sample_now in
  let later :=
    serve length_scorer [seeded_review; new_review]
      [GET ∅; POST sample_form "id-2" sample_now] in
  handle_post length_scorer [seeded_review] sample_form "id-1" sample_now
  = ([seeded_review; new_review],
     Ok (mkResponse "201 Created" (PReview new_review)))
  ∧ compound <$> sentiment new_review = Some (score length_scorer later 1)
  ∧ (handle_get length_scorer later ∅).1 !! 1 = Some new_review.
Proof.
  intros new_review later.
  assert (Hpost : handle_post length_scorer [seeded_review] sample_form
                    "id-1" sample_now
                  = ([seeded_review; new_review],
                     Ok (mkResponse "201 Created" (PReview new_review))))
    by reflexivity.
  split; [exact Hpost|].
  pose proof (created_sentiment_round_trip length_scorer [seeded_review]
                sample_form "id-1" sample_now _ new_review
                [GET ∅; POST sample_form "id-2" sample_now] ∅ Hpost)
    as (Hscore & Hstored & _).
  split; [exact Hscore|exact Hstored].
Defined.

(** ** Further samples *)

Example allowed_locations_lines :
  allowed_locations
  = ["Albuquerque, New Mexico"; "Carlsbad, California";
     "Chula Vista, California"; "Colorado Springs, Colorado";
     "Denver, Colorado"; "El Cajon, California"; "El Paso, Texas";
     "Escondido, California"; "Fresno, California"; "La Mesa, California";
     "Las Vegas, Nevada"; "Los Angeles, California"; "Oceanside, California";
     "Phoenix, Arizona"; "Sacramento, California"; "Salt Lake City, Utah";
     "Salt Lake City, Utah"; "San Diego, California"; "Tucson, Arizona"].
Proof. reflexivity. Qed.

(** An unparseable stored timestamp makes a dated GET raise, allow-list or
    not: the date filter runs before the allow-list test. *)
Example unparseable_timestamp_raises :
  handle_get length_scorer
    [mkReview None "bad" "Nowhere" "yesterday" None] unknown_location_query
  = ([mkReview None "bad" "Nowhere" "yesterday" None], Raise ValueError).
Proof. reflexivity. Qed.


(** ** The order of a ranking *)

Section SortingOrder.

Context {A : Type} (Q : relation (Z * A)).
Implicit Types (x : Z * A) (l : list (Z * A)).

Lemma keyed_order_key x y : keyed_order Q x y → (x.1 ≤ y.1)%Z.
Proof. intros [Hlt|[Heq _]]; lia. Qed.

Lemma insert_sorted_keyed x l :
  StronglySorted (keyed_order Q) l → Forall (Q x) l →
  StronglySorted (keyed_order Q) (insert_sorted x l).
Proof.
  induction 1 as [|y l Hl IH Hy]; intros Hx; cbn.
  - repeat constructor.
  - inversion_clear Hx as [|? ? Hxy Hxl].
    destruct (Z.ltb_spec y.1 x.1) as [Hlt|Hge].
    + constructor; [by apply IH|].
      rewrite insert_sorted_perm. constructor; [by left|exact Hy].
    + constructor; [by constructor|].
      assert (keyed_order Q x y) as Hkxy.
      { destruct (decide (x.1 = y.1)); [by right|left; lia]. }
      constructor; [exact Hkxy|].
      rewrite Forall_forall in Hy, Hxl. apply Forall_forall. intros z Hz.
      pose proof (keyed_order_key _ _ (Hy z Hz)) as Hyz.
      destruct (decide (x.1 = z.1)); [right; auto|left; lia].
Qed.

Lemma sort_asc_keyed l :
  StronglySorted Q l → StronglySorted (keyed_order Q) (sort_asc l).
Proof.
  induction 1 as [|x l Hl IH Hx]; cbn; [constructor|].
  apply insert_sorted_keyed; [exact IH|]. by rewrite sort_asc_perm.
Qed.

End SortingOrder.

Lemma StronglySorted_reverse {A} (R : relation (Z * A)) (l : list (Z * A)) :
  StronglySorted R l → StronglySorted (flip R) (reverse l).
Proof.
  induction 1 as [|y l Hl IH Hy]; [constructor|].
  rewrite reverse_cons. apply StronglySorted_snoc; [exact IH|].
  apply Forall_reverse. exact Hy.
Qed.

Lemma StronglySorted_weaken {A} (R S : relation A) (l : list A) :
  (∀ x y, R x y → S x y) → StronglySorted R l → StronglySorted S l.
Proof.
  intros HRS Hl. rewrite <- (list_fmap_id l).
  eapply StronglySorted_fmap_on; [|exact Hl]. intros x y _ _. apply HRS.
Qed.

(** With [reverse=True] the items come out by descending key, and the ones
    of one key in the order [Q] they had in the list. *)
Lemma list_sort_reverse_keyed {A} (Q : relation (Z * A)) (l : list (Z * A)) :
  StronglySorted Q l →
  StronglySorted (fun x y => (y.1 < x.1)%Z ∨ (x.1 = y.1 ∧ Q x y))
    (list_sort true l).
Proof.
  intros Hl. unfold list_sort.
  apply (StronglySorted_weaken (flip (keyed_order (flip Q)))).
  - intros x y [Hlt|[Heq Hq]]; [by left|by right].
  - by apply StronglySorted_reverse, sort_asc_keyed, StronglySorted_reverse.
Qed.

(** ** Facts about what a filter lets through *)

Lemma rfilter_sublist {A} (p : A → result bool) (l out : list A) :
  rfilter p l = Ok out → out `sublist_of` l.
Proof.
  revert out. induction l as [|x l IH]; intros out; cbn [rfilter].
  - by intros [= <-].
  - destruct (p x) as [b|]; [|done]. run_binds.
    destruct (rfilter p l) as [ys|]; [|done]. run_binds.
    intros [= <-]. destruct b; [apply sublist_skip|apply sublist_cons]; auto.
Qed.

(** The first condition that raises decides the outcome. *)
Lemma rfilter_raise {A} (p : A → result bool) (l : list A) (e : exn) :
  rfilter p l = Raise e → ∃ x, x ∈ l ∧ p x = Raise e.
Proof.
  induction l as [|x l IH]; cbn [rfilter]; [done|].
  destruct (p x) as [b|e'] eqn:Hx.
  - run_binds. destruct (rfilter p l) as [ys|e'']; [done|]. run_binds.
    intros [= ->]. destruct IH as (y & Hy & Hpy); [done|].
    exists y. split; [by right|done].
  - run_binds. intros [= ->]. exists x. split; [left|done].
Qed.

Lemma rfilter_raises {A} (p : A → result bool) (l : list A) (e : exn) :
  Forall (fun x => p x = Raise e ∨ ∃ b, p x = Ok b) l →
  Exists (fun x => p x = Raise e) l →
  rfilter p l = Raise e.
Proof.
  induction 1 as [|x l Hx Hl IH]; intros Hex; [by inversion Hex|].
  cbn [rfilter]. destruct Hx as [->|[b Hb]]; [done|].
  rewrite Hb. run_binds. inversion_clear Hex as [? ? Hraise|? ? Hrest].
  - congruence.
  - by rewrite IH.
Qed.

Lemma rfilter_ext {A} (p q : A → result bool) (l : list A) :
  Forall (fun x => p x = q x) l → rfilter p l = rfilter q l.
Proof.
  induction 1 as [|x l Hx _ IH]; [done|]. cbn [rfilter]. by rewrite Hx, IH.
Qed.

Lemma sublist_StronglySorted {A} (R : relation A) (l k : list A) :
  l `sublist_of` k → StronglySorted R k → StronglySorted R l.
Proof.
  induction 1 as [|x l k Hlk IH|x l k Hlk IH]; intros Hk.
  - constructor.
  - inversion_clear Hk as [|? ? Hk' Hx]. constructor; [by apply IH|].
    rewrite Forall_forall in Hx. apply Forall_forall. intros y Hy.
    apply Hx. by eapply elem_of_sublist.
  - inversion_clear Hk. by apply IH.
Qed.

Lemma seq_StronglySorted (j n : nat) : StronglySorted lt (seq j n).
Proof.
  revert j. induction n as [|n IH]; intros j; cbn; constructor; [apply IH|].
  apply Forall_seq. intros k Hk. lia.
Qed.

(** Reading a list through its positions. *)
Lemma fmap_filter_positions {A} `{!Inhabited A} (P : A → Prop)
    `{!∀ x, Decision (P x)} (l : list A) :
  (fun i => l !!! i) <$> filter (fun i => P (l !!! i)) (seq 0 (List.length l))
  = filter P l.
Proof.
  induction l as [|x l IH] using rev_ind; [done|].
  rewrite length_app, Nat.add_comm. cbn [List.length Nat.add].
  rewrite seq_S, !filter_app, fmap_app. cbn [Nat.add]. f_equal.
  - etrans; [|exact IH].
    rewrite (filter_agree _ (fun i => P (l !!! i))).
    + apply Forall_fmap_ext_1, Forall_forall.
      intros i [_ Hi%elem_of_seq]%list_elem_of_filter.
      apply lookup_total_app_l. lia.
    + apply Forall_seq. intros i Hi.
      rewrite lookup_total_app_l by lia. done.
  - rewrite !filter_cons, !filter_nil.
    rewrite (list_lookup_total_middle l [] x (List.length l)) by done.
    case_decide; cbn; [|done].
    by rewrite (list_lookup_total_middle l [] x (List.length l)).
Qed.

(** ** More facts about the date filter *)

Lemma lex_le_trans (a b c : list N) :
  List.length a = List.length b → List.length b = List.length c →
  lex_le a b = true → lex_le b c = true → lex_le a c = true.
Proof.
  revert b c. induction a as [|x a IH]; intros [|y b] [|z c]; try done.
  cbn [lex_le List.length]. intros [= Hab] [= Hbc].
  destruct (N.ltb_spec x y), (N.ltb_spec y x), (N.ltb_spec y z),
    (N.ltb_spec z y), (N.ltb_spec x z), (N.ltb_spec z x);
    try done; try lia; try by apply IH.
Qed.

Lemma dt_le_trans (a b c : datetime) :
  dt_le a b = true → dt_le b c = true → dt_le a c = true.
Proof. unfold dt_le. by apply lex_le_trans. Qed.

Lemma filter_none {A} (P : A → Prop) `{!∀ x, Decision (P x)} (l : list A) :
  Forall (fun x => ¬ P x) l → filter P l = [].
Proof.
  induction 1 as [|x l Hx _ IH]; [done|].
  by rewrite filter_cons, decide_False, IH.
Qed.

Section DateFilterMore.

Implicit Types query_params : gmap string (list string).
Implicit Types reviews : list review.
Implicit Types filtered_reviews : list nat.

(** Once the parameters are read, the comprehensions decide. *)
Lemma filter_by_date_range_bound reviews filtered_reviews query_params
    (start_date end_date : option datetime) :
  bound query_params "start_date" start_date →
  bound query_params "end_date" end_date →
  filter_by_date_range reviews filtered_reviews query_params
  = date_comprehension reviews filtered_reviews start_date end_date.
Proof.
  intros Hstart Hend. unfold filter_by_date_range.
  destruct start_date as [s|], end_date as [e|]; cbn in Hstart, Hend.
  - destruct Hstart as (v & [vs ->] & Hv), Hend as (w & [ws ->] & Hw).
    run_binds. rewrite Hv. run_binds. by rewrite Hw.
  - destruct Hstart as (v & [vs ->] & Hv). rewrite Hend.
    run_binds. by rewrite Hv.
  - destruct Hend as (w & [ws ->] & Hw). rewrite Hstart.
    run_binds. by rewrite Hw.
  - by rewrite Hstart, Hend.
Qed.

Lemma review_time_outcome reviews (i : nat) :
  (¬ parseable (reviews !!! i) ∧ review_time reviews i = Raise ValueError)
  ∨ (parseable (reviews !!! i) ∧ ∃ t, review_time reviews i = Ok t).
Proof.
  unfold review_time, parseable.
  destruct (strptime_timestamp _) as [t|]; [right|left]; split; eauto.
Qed.

(** Every comprehension runs [rfilter] on a condition that first parses the
    timestamp; [test] is the comparison that follows. *)
Lemma date_comprehension_cases reviews filtered_reviews start_date end_date :
  (start_date = None ∧ end_date = None
   ∧ date_comprehension reviews filtered_reviews start_date end_date
     = Ok filtered_reviews)
  ∨ ((is_Some start_date ∨ is_Some end_date)
     ∧ ∃ test : datetime → bool,
         date_comprehension reviews filtered_reviews start_date end_date
         = rfilter (fun i => t ← review_time reviews i; Ok (test t))
             filtered_reviews).
Proof.
  destruct start_date as [s|], end_date as [e|]; cbn [date_comprehension];
    [right|right|right|left; done]; (split; [eauto|]); eauto.
Qed.

Lemma date_comprehension_sublist reviews filtered_reviews start_date end_date
    out :
  date_comprehension reviews filtered_reviews start_date end_date = Ok out →
  out `sublist_of` filtered_reviews.
Proof.
  destruct (date_comprehension_cases reviews filtered_reviews start_date
              end_date) as [(_ & _ & ->)|(_ & test & ->)].
  - by intros [= <-].
  - apply rfilter_sublist.
Qed.

Lemma date_comprehension_raise reviews filtered_reviews start_date end_date e :
  date_comprehension reviews filtered_reviews start_date end_date = Raise e →
  e = ValueError
  ∧ ∃ i, i ∈ filtered_reviews ∧ ¬ parseable (reviews !!! i).
Proof.
  destruct (date_comprehension_cases reviews filtered_reviews start_date
              end_date) as [(_ & _ & ->)|(_ & test & ->)]; [done|].
  intros (i & Hi & Hraise)%rfilter_raise.
  destruct (review_time_outcome reviews i) as [[Hbad Ht]|[_ [t Ht]]];
    rewrite Ht in Hraise; run_binds in Hraise; [|done].
  injection Hraise as <-. eauto.
Qed.

Lemma date_comprehension_raises reviews filtered_reviews start_date end_date
    i :
  is_Some start_date ∨ is_Some end_date →
  i ∈ filtered_reviews → ¬ parseable (reviews !!! i) →
  date_comprehension reviews filtered_reviews start_date end_date
  = Raise ValueError.
Proof.
  intros Hsome Hi Hbad.
  destruct (date_comprehension_cases reviews filtered_reviews start_date
              end_date) as [(-> & -> & _)|(_ & test & ->)].
  - destruct Hsome as [[? [=]]|[? [=]]].
  - apply rfilter_raises.
    + apply Forall_forall. intros j _.
      destruct (review_time_outcome reviews j) as [[_ ->]|[_ [t ->]]];
        run_binds; eauto.
    + apply Exists_exists. exists i. split; [done|].
      destruct (review_time_outcome reviews i) as [[_ ->]|[Hgood _]]; done.
Qed.

Lemma filter_by_date_range_cases reviews filtered_reviews query_params :
  parse_qs_shaped query_params →
  filter_by_date_range reviews filtered_reviews query_params
  = Ok filtered_reviews
  ∨ ∃ start_date end_date,
      filter_by_date_range reviews filtered_reviews query_params
      = date_comprehension reviews filtered_reviews start_date end_date.
Proof.
  intros Hshape. unfold filter_by_date_range.
  destruct (query_params !! "start_date") as [[|v vs]|] eqn:Hs;
    [by destruct (parse_qs_shaped_lookup _ _ Hshape Hs)| |];
    destruct (query_params !! "end_date") as [[|w ws]|] eqn:He;
    try (by destruct (parse_qs_shaped_lookup _ _ Hshape He)); run_binds;
    repeat case_match; eauto.
Qed.

Lemma filter_by_date_range_raise reviews filtered_reviews query_params e :
  parse_qs_shaped query_params →
  filter_by_date_range reviews filtered_reviews query_params = Raise e →
  e = ValueError
  ∧ ∃ i, i ∈ filtered_reviews ∧ ¬ parseable (reviews !!! i).
Proof.
  intros Hshape Hraise.
  destruct (filter_by_date_range_cases reviews filtered_reviews query_params
              Hshape) as [Hok|(s & e' & Hcomp)]; [congruence|].
  rewrite Hcomp in Hraise. by eapply date_comprehension_raise.
Qed.

Lemma date_comprehension_ext reviews1 reviews2 filtered_reviews start_date
    end_date :
  Forall (fun i => Timestamp (reviews1 !!! i) = Timestamp (reviews2 !!! i))
    filtered_reviews →
  date_comprehension reviews1 filtered_reviews start_date end_date
  = date_comprehension reviews2 filtered_reviews start_date end_date.
Proof.
  intros Hsame.
  destruct start_date as [s|], end_date as [e|]; cbn [date_comprehension];
    try done; apply rfilter_ext; (eapply Forall_impl; [exact Hsame|]);
    intros i Hi; unfold review_time; by rewrite Hi.
Qed.

Lemma filter_by_date_range_ext reviews1 reviews2 filtered_reviews
    query_params :
  Forall (fun i => Timestamp (reviews1 !!! i) = Timestamp (reviews2 !!! i))
    filtered_reviews →
  filter_by_date_range reviews1 filtered_reviews query_params
  = filter_by_date_range reviews2 filtered_reviews query_params.
Proof.
  intros Hsame. unfold filter_by_date_range.
  pose proof (date_comprehension_ext reviews1 reviews2 filtered_reviews)
    as Hext.
  destruct (query_params !! "start_date") as [[|v vs]|];
    destruct (query_params !! "end_date") as [[|w ws]|];
    run_binds; repeat case_match; auto.
Qed.

Lemma date_comprehension_selects reviews filtered_reviews start_date end_date :
  (start_date = None ∧ end_date = None)
  ∨ Forall (fun i => parseable (reviews !!! i)) filtered_reviews →
  date_comprehension reviews filtered_reviews start_date end_date
  = Ok (filter (fun i => passes ∅ start_date end_date (reviews !!! i))
          filtered_reviews).
Proof.
  intros Hcase.
  destruct (decide (start_date = None ∧ end_date = None)) as [[-> ->]|Hsome].
  - cbn [date_comprehension]. f_equal. symmetry. apply filter_all.
    by apply Forall_forall.
  - destruct Hcase as [Hnone|Hparse]; [done|].
    rewrite date_comprehension_ok by done. f_equal.
    apply filter_agree, Forall_forall. intros i _.
    unfold passes, located, kept, dated. rewrite lookup_empty.
    destruct start_date, end_date; try done. by destruct Hsome.
Qed.

Lemma get_filter_selects reviews query_params start_date end_date :
  parse_qs_shaped query_params →
  bound query_params "start_date" start_date →
  bound query_params "end_date" end_date →
  (start_date = None ∧ end_date = None) ∨ Forall parseable reviews →
  get_filter reviews query_params
  = Ok (filter
          (fun i => passes query_params start_date end_date (reviews !!! i))
          (seq 0 (List.length reviews))).
Proof.
  intros Hshape Hstart Hend Hcase. unfold get_filter.
  assert (Hvalid : ∀ P : nat → Prop, ∀ Hdec : (∀ i, Decision (P i)),
    (start_date = None ∧ end_date = None)
    ∨ Forall (fun i => parseable (reviews !!! i))
        (filter P (seq 0 (List.length reviews)))).
  { intros P Hdec. destruct Hcase as [?|Hparse]; [by left|right].
    apply store_parseable; [done|]. apply Forall_forall.
    intros i [_ Hi%elem_of_seq]%list_elem_of_filter. lia. }
  pose proof (parse_qs_shaped_lookup query_params "location" Hshape) as Hloc.
  destruct (query_params !! "location") as [[|v vs]|] eqn:Hl; [done| |];
    run_binds;
    rewrite (filter_by_date_range_bound _ _ _ _ _ Hstart Hend).
  - rewrite date_comprehension_selects by apply Hvalid. run_binds. f_equal.
    rewrite list_filter_filter. case_decide as Hallowed.
    + apply filter_agree, Forall_forall. intros i _.
      unfold passes, located. rewrite Hl, lookup_empty.
      rewrite !andb_True, bool_decide_spec.
      pose proof I as Htrue. change True with (Is_true true) in Htrue.
      clear -Hallowed Htrue. tauto.
    + symmetry. apply filter_none, Forall_forall. intros i _.
      unfold passes, located. rewrite Hl.
      rewrite andb_True, bool_decide_spec. clear -Hallowed. tauto.
  - rewrite <- (filter_all (fun _ => True) (seq 0 (List.length reviews)))
      at 1 by (by apply Forall_forall).
    rewrite date_comprehension_selects by apply Hvalid. run_binds. f_equal.
    rewrite list_filter_filter.
    apply filter_agree, Forall_forall. intros i _.
    unfold passes, located. rewrite Hl, lookup_empty. clear. tauto.
Qed.

(** X3: when a date bound is in force and the timestamp of one review of
    the sequence does not parse, the date filter raises [ValueError]: the
    comprehension parses every timestamp, outside any [try]. *)
Theorem date_filter_raises_on_unparseable reviews filtered_reviews
    query_params (start_date end_date : option datetime) (i : nat) :
  bound query_params "start_date" start_date →
  bound query_params "end_date" end_date →
  is_Some start_date ∨ is_Some end_date →
  i ∈ filtered_reviews → ¬ parseable (reviews !!! i) →
  filter_by_date_range reviews filtered_reviews query_params
  = Raise ValueError.
Proof.
  intros Hstart Hend Hsome Hi Hbad.
  rewrite (filter_by_date_range_bound _ _ _ _ _ Hstart Hend).
  by eapply date_comprehension_raises.
Qed.

(** X11: a start date later than the end date keeps no review. *)
Theorem inverted_range_keeps_nothing reviews filtered_reviews query_params
    (s e : datetime) :
  bound query_params "start_date" (Some s) →
  bound query_params "end_date" (Some e) →
  dt_le s e = false →
  Forall (fun i => parseable (reviews !!! i)) filtered_reviews →
  filter_by_date_range reviews filtered_reviews query_params = Ok [].
Proof.
  intros Hstart Hend Hinverted Hparse.
  rewrite (filter_by_date_range_bound _ _ _ _ _ Hstart Hend).
  rewrite date_comprehension_ok by done. f_equal.
  apply filter_none, Forall_forall. intros i _. unfold kept.
  destruct (strptime_timestamp _) as [t|]; [|by intros []].
  unfold in_range. cbn [from_option].
  destruct (dt_le s t) eqn:Hst, (dt_le t e) eqn:Hte; try by intros [].
  by rewrite (dt_le_trans _ _ _ Hst Hte) in Hinverted.
Qed.

Lemma filter_by_date_range_sublist reviews filtered_reviews query_params out :
  filter_by_date_range reviews filtered_reviews query_params = Ok out →
  out `sublist_of` filtered_reviews.
Proof.
  unfold filter_by_date_range.
  pose proof (date_comprehension_sublist reviews filtered_reviews) as Hsub.
  destruct (query_params !! "start_date") as [[|v vs]|];
    destruct (query_params !! "end_date") as [[|w ws]|];
    run_binds; try done; repeat case_match;
    first [ by intros [= <-] | apply Hsub ].
Qed.

(** X12: whatever the parameters, the date filter only removes: what it
    returns is a subsequence of what it was given, in the same order. *)
Theorem date_filter_only_removes reviews filtered_reviews query_params out :
  filter_by_date_range reviews filtered_reviews query_params = Ok out →
  out `sublist_of` filtered_reviews.
Proof. apply filter_by_date_range_sublist. Qed.

End DateFilterMore.

(** ** More facts about the handlers *)

Lemma data_lookup_total (reviews1 reviews2 : list review) (i : nat) :
  data <$> reviews1 = data <$> reviews2 →
  data (reviews1 !!! i) = data (reviews2 !!! i).
Proof.
  intros Hdata.
  assert (data <$> reviews1 !! i = data <$> reviews2 !! i) as Hi
    by (by rewrite <- !list_lookup_fmap, Hdata).
  rewrite !list_lookup_total_alt.
  destruct (reviews1 !! i), (reviews2 !! i); cbn in Hi |- *; congruence.
Qed.

Section Coverage.

Variable polarity_scores : string → scores.

Implicit Types query_params parsed_body : gmap string (list string).
Implicit Types reviews : list review.
Implicit Types filtered_reviews : list nat.

Abbreviation analyze_sentiment := (analyze_sentiment polarity_scores).
Abbreviation scored := (scored polarity_scores).
Abbreviation score := (score polarity_scores).
Abbreviation ranking := (ranking polarity_scores).
Abbreviation attach_sentiment := (attach_sentiment polarity_scores).
Abbreviation handle_get := (handle_get polarity_scores).
Abbreviation handle_post := (handle_post polarity_scores).
Abbreviation call := (call polarity_scores).
Abbreviation serve := (serve polarity_scores).
Abbreviation created := (created polarity_scores).
Abbreviation by_score_then_position :=
  (by_score_then_position polarity_scores).

Lemma data_scored (r : review) : data (scored r) = data r.
Proof. reflexivity. Qed.

Lemma scored_data (r1 r2 : review) : data r1 = data r2 → scored r1 = scored r2.
Proof.
  destruct r1, r2. unfold data. cbn. intros [= -> -> -> ->]. reflexivity.
Qed.

Lemma score_data reviews1 reviews2 (i : nat) :
  data <$> reviews1 = data <$> reviews2 → score reviews1 i = score reviews2 i.
Proof.
  intros Hdata%(data_lookup_total _ _ i). unfold score.
  by injection Hdata as _ -> _ _.
Qed.

Lemma get_filter_sublist reviews query_params filtered_reviews :
  get_filter reviews query_params = Ok filtered_reviews →
  filtered_reviews `sublist_of` seq 0 (List.length reviews).
Proof.
  unfold get_filter. intros Hget.
  apply rbind_ok in Hget as (located & Hloc & Hget).
  apply rbind_ok in Hget as (dated & Hdate & Hget).
  apply filter_by_date_range_sublist in Hdate.
  assert (located `sublist_of` seq 0 (List.length reviews)) as Hlocated.
  { destruct (query_params !! "location") as [[|v vs]|]; try done.
    - run_binds in Hloc. injection Hloc as <-. apply sublist_filter.
    - by injection Hloc as <-. }
  assert (filtered_reviews `sublist_of` dated) as Hfinal.
  { destruct (query_params !! "location") as [[|v vs]|]; try done.
    - run_binds in Hget. case_decide; injection Hget as <-; [done|].
      apply sublist_nil_l.
    - by injection Hget as <-. }
  by repeat (etrans; [eassumption|]).
Qed.

Lemma get_filter_raise reviews query_params e :
  parse_qs_shaped query_params →
  get_filter reviews query_params = Raise e →
  e = ValueError ∧ ∃ r, r ∈ reviews ∧ ¬ parseable r.
Proof.
  intros Hshape. unfold get_filter.
  pose proof (parse_qs_shaped_lookup query_params "location" Hshape) as Hloc.
  destruct (query_params !! "location") as [[|v vs]|]; [done| |]; run_binds.
  - destruct (filter_by_date_range _ _ _) as [out|e'] eqn:Hdate;
      run_binds; [done|]. intros [= ->].
    apply filter_by_date_range_raise in Hdate as (-> & i & Hi & Hbad);
      [|done]. split; [done|].
    apply list_elem_of_filter in Hi as [_ Hi%elem_of_seq].
    exists (reviews !!! i). split; [|done].
    apply list_elem_of_lookup. exists i.
    apply list_lookup_lookup_total_lt. lia.
  - destruct (filter_by_date_range _ _ _) as [out|e'] eqn:Hdate;
      run_binds; [done|]. intros [= ->].
    apply filter_by_date_range_raise in Hdate as (-> & i & Hi%elem_of_seq & Hbad);
      [|done]. split; [done|].
    exists (reviews !!! i). split; [|done].
    apply list_elem_of_lookup. exists i.
    apply list_lookup_lookup_total_lt. lia.
Qed.

(** What a GET answers once the filters have passed, told by the store as
    the request found it. *)
Lemma handle_get_response reviews query_params filtered_reviews :
  get_filter reviews query_params = Ok filtered_reviews →
  handle_get reviews query_params
  = (attach_sentiment reviews filtered_reviews,
     Ok (mkResponse "200 OK"
           (PReviews ((fun i => scored (reviews !!! i))
                        <$> ranking reviews filtered_reviews)))).
Proof.
  intros Hget. rewrite (handle_get_ok _ _ _ _ Hget). do 4 f_equal.
  apply Forall_fmap_ext_1, Forall_forall. intros i Hi.
  rewrite ranking_perm in Hi.
  pose proof (get_filter_valid _ _ _ Hget) as Hvalid.
  rewrite Forall_forall in Hvalid.
  by apply attach_sentiment_total; auto.
Qed.

Lemma ranking_order reviews filtered_reviews :
  StronglySorted lt filtered_reviews →
  StronglySorted (by_score_then_position reviews)
    (ranking reviews filtered_reviews).
Proof.
  intros Hsorted. unfold ranking.
  eapply StronglySorted_fmap_on;
    [|apply (list_sort_reverse_keyed (fun x y : Z * nat => x.2 < y.2))].
  - intros x y Hx%keyed_sorted_elem Hy%keyed_sorted_elem.
    unfold by_score_then_position. rewrite <- Hx, <- Hy.
    intros [Hlt|[Heq Hpos]]; [by left|by right].
  - eapply StronglySorted_fmap_on; [|exact Hsorted]. by intros i j _ _.
Qed.

(** X5: the reviews of a GET response are the reviews at the ranked
    positions of the store, each with the score of its body as sentiment;
    the positions are ordered by descending compound score and, among equal
    scores, by their order in the store. *)
Theorem get_response_order reviews query_params store resp :
  handle_get reviews query_params = (store, Ok resp) →
  ∃ ranked,
    resp = mkResponse "200 OK"
             (PReviews ((fun i => scored (reviews !!! i)) <$> ranked))
    ∧ Forall (fun i => i < List.length reviews) ranked
    ∧ StronglySorted (by_score_then_position reviews) ranked.
Proof.
  destruct (get_filter reviews query_params) as [fr|e] eqn:Hget.
  - rewrite (handle_get_response _ _ _ Hget). intros [= <- <-].
    exists (ranking reviews fr). split; [done|]. split.
    + rewrite ranking_perm. by eapply get_filter_valid.
    + apply ranking_order.
      eapply sublist_StronglySorted; [by eapply get_filter_sublist|].
      apply seq_StronglySorted.
  - by rewrite (handle_get_raise _ _ _ _ Hget).
Qed.

Lemma handle_get_data reviews query_params :
  data <$> (handle_get reviews query_params).1 = data <$> reviews.
Proof.
  destruct (get_filter reviews query_params) as [fr|e] eqn:Hget.
  - rewrite (handle_get_response _ _ _ Hget). cbn [fst].
    apply list_eq. intros i.
    rewrite !list_lookup_fmap, attach_sentiment_lookup.
    destruct (reviews !! i) as [r|]; [|done]. cbn. by case_decide.
  - by rewrite (handle_get_raise _ _ _ _ Hget).
Qed.

(** X1: a GET never changes the length of the store nor any field of a
    stored review but [sentiment]; a stored review is left as it was or gets
    the score of its body, and the latter only with a 200 response that
    contains it. *)
Theorem get_changes_only_sentiment reviews query_params :
  data <$> (handle_get reviews query_params).1 = data <$> reviews
  ∧ ∀ i r, reviews !! i = Some r →
      (handle_get reviews query_params).1 !! i = Some r
      ∨ ((handle_get reviews query_params).1 !! i = Some (scored r)
         ∧ ∃ out,
             (handle_get reviews query_params).2
             = Ok (mkResponse "200 OK" (PReviews out))
             ∧ scored r ∈ out).
Proof.
  split; [apply handle_get_data|].
  destruct (get_filter reviews query_params) as [fr|e] eqn:Hget.
  - rewrite (handle_get_response _ _ _ Hget). cbn [fst snd].
    + intros i r Hi. rewrite attach_sentiment_lookup, Hi.
      cbn [fmap option_fmap option_map].
      case_decide as Hin; [right|by left]. split; [done|].
      eexists. split; [done|].
      apply list_elem_of_fmap. exists i. split.
      * by rewrite (list_lookup_total_correct _ _ _ Hi).
      * by rewrite ranking_perm.
  - rewrite (handle_get_raise _ _ _ _ Hget). cbn [fst].
    intros i r Hi. by left.
Qed.

(** X2: a GET on a query as [parse_qs] builds it fails in one way only,
    with [ValueError] from a stored timestamp that does not parse, and then
    it has not touched the store. *)
Theorem get_failure_is_unparseable_timestamp reviews query_params e :
  parse_qs_shaped query_params →
  (handle_get reviews query_params).2 = Raise e →
  e = ValueError
  ∧ (handle_get reviews query_params).1 = reviews
  ∧ ∃ r, r ∈ reviews ∧ ¬ parseable r.
Proof.
  intros Hshape.
  destruct (get_filter reviews query_params) as [fr|e'] eqn:Hget.
  - by rewrite (handle_get_response _ _ _ Hget).
  - rewrite (handle_get_raise _ _ _ _ Hget). cbn [fst snd]. intros [= ->].
    destruct (get_filter_raise _ _ _ Hshape Hget) as [-> Hbad]. done.
Qed.

(** X4: with the date parameters read as bounds, a GET answers 200 with
    the stored reviews that pass the location and date filters, each one
    once and with the score of its body.  Without date parameters this
    holds for any store; with them, for a store whose timestamps parse. *)
Theorem get_returns_matching_reviews reviews query_params
    (start_date end_date : option datetime) :
  parse_qs_shaped query_params →
  bound query_params "start_date" start_date →
  bound query_params "end_date" end_date →
  (start_date = None ∧ end_date = None) ∨ Forall parseable reviews →
  ∃ out,
    (handle_get reviews query_params).2
    = Ok (mkResponse "200 OK" (PReviews out))
    ∧ out ≡ₚ scored
             <$> filter (fun r => passes query_params start_date end_date r)
                   reviews.
Proof.
  intros Hshape Hstart Hend Hcase.
  pose proof (get_filter_selects _ _ _ _ Hshape Hstart Hend Hcase) as Hget.
  rewrite (handle_get_response _ _ _ Hget). cbn [snd].
  eexists. split; [done|].
  rewrite ranking_perm.
  rewrite <- (fmap_filter_positions
                (fun r => passes query_params start_date end_date r) reviews).
  by rewrite <- list_fmap_compose.
Qed.

Lemma get_filter_ext reviews1 reviews2 query_params :
  data <$> reviews1 = data <$> reviews2 →
  get_filter reviews1 query_params = get_filter reviews2 query_params.
Proof.
  intros Hdata. unfold get_filter.
  assert (List.length reviews1 = List.length reviews2) as ->
    by (by rewrite <- (length_fmap data reviews1), Hdata, length_fmap).
  assert (Hfield : ∀ i, Location (reviews1 !!! i) = Location (reviews2 !!! i)
                     ∧ Timestamp (reviews1 !!! i) = Timestamp (reviews2 !!! i)).
  { intros i. pose proof (data_lookup_total _ _ i Hdata) as Hi.
    by injection Hi as _ _ -> ->. }
  assert (Hdate : ∀ l, filter_by_date_range reviews1 l query_params
                       = filter_by_date_range reviews2 l query_params).
  { intros l. apply filter_by_date_range_ext, Forall_forall.
    intros i _. apply Hfield. }
  destruct (query_params !! "location") as [[|v vs]|]; [done| |];
    run_binds; rewrite Hdate; [|done].
  rewrite (filter_agree _ (fun i => Location (reviews2 !!! i) = v)); [done|].
  apply Forall_forall. intros i _. by destruct (Hfield i) as [-> _].
Qed.

Lemma ranking_ext reviews1 reviews2 filtered_reviews :
  data <$> reviews1 = data <$> reviews2 →
  ranking reviews1 filtered_reviews = ranking reviews2 filtered_reviews.
Proof.
  intros Hdata. unfold ranking. do 2 f_equal.
  apply list_fmap_ext. intros _ i _. by rewrite (score_data _ _ i Hdata).
Qed.

Lemma handle_get_snd_ext reviews1 reviews2 query_params :
  data <$> reviews1 = data <$> reviews2 →
  (handle_get reviews1 query_params).2 = (handle_get reviews2 query_params).2.
Proof.
  intros Hdata.
  pose proof (get_filter_ext _ _ query_params Hdata) as Hext.
  destruct (get_filter reviews1 query_params) as [fr|e] eqn:Hget.
  - rewrite (handle_get_response _ _ _ Hget).
    rewrite (handle_get_response _ _ _ (eq_sym Hext)). cbn [snd].
    rewrite (ranking_ext _ _ _ Hdata). do 3 f_equal.
    apply list_fmap_ext. intros _ i _.
    apply scored_data, data_lookup_total, Hdata.
  - rewrite (handle_get_raise _ _ _ _ Hget).
    by rewrite (handle_get_raise _ _ _ _ (eq_sym Hext)).
Qed.

(** X6: the answer to a GET does not depend on the sentiment the store
    holds: two stores that agree on every other field get the same answer,
    and agree on every other field afterwards. *)
Theorem get_ignores_stored_sentiment reviews1 reviews2 query_params :
  data <$> reviews1 = data <$> reviews2 →
  (handle_get reviews1 query_params).2 = (handle_get reviews2 query_params).2
  ∧ data <$> (handle_get reviews1 query_params).1
    = data <$> (handle_get reviews2 query_params).1.
Proof.
  intros Hdata. split; [by apply handle_get_snd_ext|].
  by rewrite !handle_get_data.
Qed.

(** X7: the same GET asked again gets the same answer and leaves the store
    as the first one left it. *)
Theorem get_twice reviews query_params :
  handle_get (handle_get reviews query_params).1 query_params
  = handle_get reviews query_params.
Proof.
  rewrite (surjective_pairing (handle_get reviews query_params)) at 2.
  pose proof (handle_get_data reviews query_params) as Hdata.
  pose proof (handle_get_snd_ext _ _ query_params Hdata) as Hsnd.
  pose proof (get_filter_ext _ _ query_params Hdata) as Hext.
  rewrite (surjective_pairing (handle_get (handle_get _ _).1 _)).
  rewrite Hsnd. f_equal.
  destruct (get_filter reviews query_params) as [fr|e] eqn:Hget.
  - rewrite (handle_get_response _ _ _ Hget) in Hext |- *. cbn [fst] in *.
    rewrite (handle_get_response _ _ _ Hext). cbn [fst].
    apply list_eq. intros i. rewrite !attach_sentiment_lookup.
    destruct (reviews !! i) as [r|]; [|done]. cbn. by case_decide.
  - rewrite (handle_get_raise _ _ _ _ Hget) in Hext |- *. cbn [fst] in *.
    by rewrite (handle_get_raise _ _ _ _ Hext).
Qed.

(** *** Sequences of requests *)

Lemma handle_post_cases reviews parsed_body uuid now :
  (∃ review_body location,
     supplied parsed_body "ReviewBody" review_body
     ∧ supplied parsed_body "Location" location
     ∧ location ∈ allowed_locations
     ∧ handle_post reviews parsed_body uuid now
       = (reviews ++ [created review_body location uuid now],
          Ok (mkResponse "201 Created"
                (PReview (created review_body location uuid now)))))
  ∨ (¬ (∃ review_body location,
          supplied parsed_body "ReviewBody" review_body
          ∧ supplied parsed_body "Location" location
          ∧ location ∈ allowed_locations)
     ∧ ∃ msg,
         handle_post reviews parsed_body uuid now
         = (reviews, Ok (mkResponse "400 Bad Request" (PError msg)))).
Proof.
  unfold handle_post.
  destruct (parsed_body !! "ReviewBody") as [[|b bs]|] eqn:Hb;
    cbn [from_option]; run_binds.
  - right. split; [|eauto]. intros (b & l & [bs Hb'] & _). congruence.
  - destruct (parsed_body !! "Location") as [[|l ls]|] eqn:Hl;
      cbn [from_option]; run_binds.
    + right. split; [|eauto]. intros (b' & l & _ & [ls Hl'] & _). congruence.
    + case_decide as Hallowed.
      * left. exists b, l. unfold supplied. eauto 10.
      * right. split; [|eauto].
        intros (b' & l' & _ & [ls' Hl'] & Hallowed'). congruence.
    + right. split; [|eauto]. intros (b' & l & _ & [ls Hl'] & _). congruence.
  - right. split; [|eauto]. intros (b & l & [bs Hb'] & _). congruence.
Qed.

(** X9: from the parsed form on, the POST branch has two outcomes.  It
    answers 201 exactly when both fields are supplied and the location is in
    the allow-list, and then the store grows by the review of the response;
    in every other case it answers 400 and the store is as before.  Reading
    and decoding the request body comes before and is not part of this. *)
Theorem post_outcomes reviews parsed_body uuid now :
  let accepted :=
    ∃ review_body location,
      supplied parsed_body "ReviewBody" review_body
      ∧ supplied parsed_body "Location" location
      ∧ location ∈ allowed_locations in
  ∃ resp,
    (handle_post reviews parsed_body uuid now).2 = Ok resp
    ∧ (status resp = "201 Created" ↔ accepted)
    ∧ (status resp = "400 Bad Request" ↔ ¬ accepted)
    ∧ (accepted →
       ∃ r, body resp = PReview r
            ∧ (handle_post reviews parsed_body uuid now).1 = reviews ++ [r])
    ∧ (¬ accepted →
       (handle_post reviews parsed_body uuid now).1 = reviews).
Proof.
  intros accepted.
  destruct (handle_post_cases reviews parsed_body uuid now)
    as [(b & l & Hb & Hl & Hallowed & ->)|(Hnot & msg & ->)]; cbn [fst snd].
  - assert accepted as Hacc by (exists b, l; done).
    eexists. split; [done|]. cbn [status body].
    repeat split; try done; eauto.
  - eexists. split; [done|]. cbn [status body].
    repeat split; try done.
Qed.

Lemma call_data reviews req :
  ∃ added,
    data <$> (call reviews req).1 = (data <$> reviews) ++ added
    ∧ List.length added ≤ 1
    ∧ Forall (fun d => is_Some d.1.1.1 ∧ d.1.2 ∈ allowed_locations) added.
Proof.
  destruct req as [q|pb uuid now]; cbn [call].
  - exists []. rewrite handle_get_data, app_nil_r.
    split; [done|]. split; [cbn; lia|constructor].
  - destruct (handle_post_cases reviews pb uuid now)
      as [(b & l & Hb & Hl & Hallowed & ->)|(Hnot & msg & ->)]; cbn [fst].
    + exists [data (created b l uuid now)]. rewrite fmap_app.
      split; [done|]. split; [cbn; lia|].
      constructor; [|done]. by split; [eexists|].
    + exists []. rewrite app_nil_r.
      split; [done|]. split; [cbn; lia|constructor].
Qed.

(** X8: the store only grows at its end.  After any requests the reviews
    it held are at their positions with every field but [sentiment] as
    before, at most one review is added per request, and every added review
    has an id and a location of the allow-list. *)
Theorem serve_append_only reviews reqs :
  ∃ added,
    data <$> serve reviews reqs = (data <$> reviews) ++ added
    ∧ List.length added ≤ List.length reqs
    ∧ Forall (fun d => is_Some d.1.1.1 ∧ d.1.2 ∈ allowed_locations) added.
Proof.
  revert reviews. induction reqs as [|req reqs IH]; intros reviews.
  - exists []. rewrite app_nil_r.
    split; [done|]. split; [cbn; lia|constructor].
  - cbn [serve foldl].
    destruct (call_data reviews req) as (added1 & Hdata1 & Hlen1 & Hall1).
    destruct (IH (call reviews req).1) as (added2 & Hdata2 & Hlen2 & Hall2).
    exists (added1 ++ added2). split; [|split].
    + unfold serve in Hdata2. by rewrite Hdata2, Hdata1, app_assoc.
    + rewrite length_app. cbn [List.length]. lia.
    + by apply Forall_app.
Qed.

Lemma parseable_data reviews1 reviews2 :
  data <$> reviews1 = data <$> reviews2 →
  Forall parseable reviews1 → Forall parseable reviews2.
Proof.
  intros Hdata Hparse. apply Forall_lookup. intros i r2 Hi.
  assert (data <$> reviews1 !! i = Some (data r2)) as Hi1
    by (by rewrite <- list_lookup_fmap, Hdata, list_lookup_fmap, Hi).
  destruct (reviews1 !! i) as [r1|] eqn:Hr1; [|done].
  pose proof (Forall_lookup_1 _ _ _ _ Hparse Hr1) as Hgood.
  unfold parseable in *. unfold data in Hi1. cbn in Hi1.
  by injection Hi1 as _ _ _ <-.
Qed.

Lemma call_parseable reviews req :
  Forall parseable reviews → clock_ok req →
  Forall parseable (call reviews req).1.
Proof.
  intros Hparse Hclock. destruct req as [q|pb uuid now]; cbn [call].
  - eapply parseable_data; [|exact Hparse].
    symmetry. apply handle_get_data.
  - destruct (handle_post_cases reviews pb uuid now)
      as [(b & l & Hb & Hl & Hallowed & ->)|(Hnot & msg & ->)]; cbn [fst];
      [|done].
    apply Forall_app. split; [done|]. constructor; [|done].
    unfold parseable. cbn [created Timestamp].
    destruct Hclock as [Hvalid Hyear].
    rewrite strptime_strftime by done. by eexists.
Qed.

(** X10: a store whose timestamps parse keeps that property through any
    requests whose clock readings are dates of the year 1000 or later, so
    that no later GET on a query as [parse_qs] builds it raises: it answers
    200. *)
Theorem served_store_stays_parseable reviews reqs :
  Forall parseable reviews → Forall clock_ok reqs →
  Forall parseable (serve reviews reqs)
  ∧ ∀ query_params, parse_qs_shaped query_params →
      ∃ out,
        (handle_get (serve reviews reqs) query_params).2
        = Ok (mkResponse "200 OK" (PReviews out)).
Proof.
  intros Hparse Hclock.
  assert (Forall parseable (serve reviews reqs)) as Hserved.
  { revert reviews Hparse.
    induction Hclock as [|req reqs Hreq _ IH]; intros reviews Hparse; [done|].
    cbn [serve foldl]. apply IH. by apply call_parseable. }
  split; [done|]. intros q Hshape.
  destruct (get_filter (serve reviews reqs) q) as [fr|e] eqn:Hget.
  - rewrite (handle_get_response _ _ _ Hget). cbn [snd]. eauto.
  - destruct (get_filter_raise _ _ _ Hshape Hget) as (_ & r & Hr & Hbad).
    destruct Hbad. rewrite Forall_forall in Hserved. by apply Hserved.
Qed.

Lemma handle_post_appends parsed_body uuid now :
  ∃ extra, ∀ reviews,
    (handle_post reviews parsed_body uuid now).1 = reviews ++ extra.
Proof.
  unfold handle_post.
  destruct (_ ≫= _) as [[b l]|e].
  - case_decide.
    + eexists. intros reviews. reflexivity.
    + exists []. intros reviews. by rewrite app_nil_r.
  - exists []. intros reviews. by rewrite app_nil_r.
Qed.

Lemma call_data_ext reviews1 reviews2 req :
  data <$> reviews1 = data <$> reviews2 →
  data <$> (call reviews1 req).1 = data <$> (call reviews2 req).1.
Proof.
  intros Hdata. destruct req as [q|pb uuid now]; cbn [call].
  - by rewrite !handle_get_data.
  - destruct (handle_post_appends pb uuid now) as [extra Hextra].
    by rewrite !Hextra, !fmap_app, Hdata.
Qed.

Lemma serve_data_ext reviews1 reviews2 reqs :
  data <$> reviews1 = data <$> reviews2 →
  data <$> serve reviews1 reqs = data <$> serve reviews2 reqs.
Proof.
  revert reviews1 reviews2.
  induction reqs as [|req reqs IH]; intros reviews1 reviews2 Hdata; [done|].
  cbn [serve foldl]. by apply IH, call_data_ext.
Qed.

(** X13: a GET cannot be noticed by later requests.  With or without a GET
    served first, any further sequence of requests leads to stores that
    agree on every field but [sentiment], and a GET after it gets the same
    answer. *)
Theorem reads_are_transparent reviews query_params reqs later_params :
  data <$> serve (handle_get reviews query_params).1 reqs
  = data <$> serve reviews reqs
  ∧ (handle_get (serve (handle_get reviews query_params).1 reqs)
       later_params).2
    = (handle_get (serve reviews reqs) later_params).2.
Proof.
  assert (data <$> serve (handle_get reviews query_params).1 reqs
          = data <$> serve reviews reqs) as Hdata
    by apply serve_data_ext, handle_get_data.
  split; [done|]. by apply handle_get_snd_ext.
Qed.

End Coverage.

(** ** These properties at sample requests *)

Lemma date_filter_raises_on_unparseable_witness :
  let day := mkDatetime 2021 1 1 0 0 0 in
  bound start_only_query "start_date" (Some day)
  ∧ bound start_only_query "end_date" None
  ∧ (is_Some (Some day) ∨ is_Some (@None datetime))
  ∧ 0 ∈ [0]
  ∧ ¬ parseable ([undated_review] !!! 0)
  ∧ filter_by_date_range [undated_review] [0] start_only_query
    = Raise ValueError.
Proof.
  intros day.
  assert (Hstart : bound start_only_query "start_date" (Some day))
    by (exists "2021-01-01"; split; [exists []|]; reflexivity).
  assert (Hend : bound start_only_query "end_date" None) by reflexivity.
  assert (Hsome : is_Some (Some day) ∨ is_Some (@None datetime))
    by (left; eexists; reflexivity).
  assert (Hin : 0 ∈ [0]) by (apply elem_of_cons; left; reflexivity).
  assert (Hbad : ¬ parseable ([undated_review] !!! 0))
    by (intros [t Ht]; vm_compute in Ht; discriminate Ht).
  repeat (split; [assumption|]).
  exact (date_filter_raises_on_unparseable [undated_review] [0]
           start_only_query (Some day) None 0 Hstart Hend Hsome Hin Hbad).
Defined.

Lemma inverted_range_keeps_nothing_witness :
  let february := mkDatetime 2021 2 1 0 0 0 in
  let january := mkDatetime 2021 1 1 0 0 0 in
  bound inverted_query "start_date" (Some february)
  ∧ bound inverted_query "end_date" (Some january)
  ∧ dt_le february january = false
  ∧ Forall (fun i => parseable ([seeded_review] !!! i)) [0]
  ∧ filter_by_date_range [seeded_review] [0] inverted_query = Ok [].
Proof.
  intros february january.
  assert (Hstart : bound inverted_query "start_date" (Some february))
    by (exists "2021-02-01"; split; [exists []|]; reflexivity).
  assert (Hend : bound inverted_query "end_date" (Some january))
    by (exists "2021-01-01"; split; [exists []|]; reflexivity).
  assert (Hinverted : dt_le february january = false) by reflexivity.
  assert (Hparse : Forall (fun i => parseable ([seeded_review] !!! i)) [0])
    by (repeat constructor; eexists; vm_compute; reflexivity).
  repeat (split; [assumption|]).
  exact (inverted_range_keeps_nothing [seeded_review] [0] inverted_query
           february january Hstart Hend Hinverted Hparse).
Defined.

Lemma date_filter_only_removes_witness :
  let store := [seeded_review; nowhere_review; midnight_review] in
  filter_by_date_range store [0; 1; 2] january_sixth_query = Ok [2]
  ∧ [2] `sublist_of` [0; 1; 2].
Proof.
  intros store.
  assert (Hout : filter_by_date_range store [0; 1; 2] january_sixth_query
                 = Ok [2]) by reflexivity.
  split; [exact Hout|].
  exact (date_filter_only_removes store [0; 1; 2] january_sixth_query [2]
           Hout).
Defined.

Lemma get_response_order_witness :
  let store := [nowhere_review; seeded_review; midnight_review] in
  let after := scored length_scorer <$> store in
  let resp :=
    mkResponse "200 OK"
      (PReviews (scored length_scorer
                   <$> [seeded_review; midnight_review; nowhere_review])) in
  handle_get length_scorer store ∅ = (after, Ok resp)
  ∧ ∃ ranked,
      resp = mkResponse "200 OK"
               (PReviews ((fun i => scored length_scorer (store !!! i))
                            <$> ranked))
      ∧ Forall (fun i => i < List.length store) ranked
      ∧ StronglySorted (by_score_then_position length_scorer store) ranked.
Proof.
  intros store after resp.
  assert (Hget : handle_get length_scorer store ∅ = (after, Ok resp))
    by reflexivity.
  split; [exact Hget|].
  exact (get_response_order length_scorer store ∅ after resp Hget).
Defined.

Lemma get_failure_is_unparseable_timestamp_witness :
  parse_qs_shaped unknown_location_query
  ∧ (handle_get length_scorer [undated_review] unknown_location_query).2
    = Raise ValueError
  ∧ ValueError = ValueError
  ∧ (handle_get length_scorer [undated_review] unknown_location_query).1
    = [undated_review]
  ∧ ∃ r, r ∈ [undated_review] ∧ ¬ parseable r.
Proof.
  assert (Hshape : parse_qs_shaped unknown_location_query)
    by (apply (bool_decide_unpack _); vm_compute; exact I).
  assert (Hraise : (handle_get length_scorer [undated_review]
                      unknown_location_query).2 = Raise ValueError)
    by reflexivity.
  repeat (split; [assumption|]).
  exact (get_failure_is_unparseable_timestamp length_scorer [undated_review]
           unknown_location_query ValueError Hshape Hraise).
Defined.

Lemma get_returns_matching_reviews_witness :
  let store := [seeded_review; nowhere_review; undated_review] in
  parse_qs_shaped denver_query
  ∧ bound denver_query "start_date" None
  ∧ bound denver_query "end_date" None
  ∧ ((@None datetime = None ∧ @None datetime = None)
     ∨ Forall parseable store)
  ∧ ∃ out,
      (handle_get length_scorer store denver_query).2
      = Ok (mkResponse "200 OK" (PReviews out))
      ∧ out ≡ₚ scored length_scorer
               <$> filter (fun r => passes denver_query None None r) store.
Proof.
  intros store.
  assert (Hshape : parse_qs_shaped denver_query)
    by (apply (bool_decide_unpack _); vm_compute; exact I).
  assert (Hstart : bound denver_query "start_date" None) by reflexivity.
  assert (Hend : bound denver_query "end_date" None) by reflexivity.
  assert (Hcase : (@None datetime = None ∧ @None datetime = None)
                  ∨ Forall parseable store)
    by (left; split; reflexivity).
  repeat (split; [assumption|]).
  exact (get_returns_matching_reviews length_scorer store denver_query
           None None Hshape Hstart Hend Hcase).
Defined.

Lemma get_ignores_stored_sentiment_witness :
  let fresh := [seeded_review; nowhere_review] in
  let stale :=
    [set_sentiment (mkScores 1 2 3 4) seeded_review; nowhere_review] in
  data <$> fresh = data <$> stale
  ∧ (handle_get length_scorer fresh ∅).2 = (handle_get length_scorer stale ∅).2
  ∧ data <$> (handle_get length_scorer fresh ∅).1
    = data <$> (handle_get length_scorer stale ∅).1.
Proof.
  intros fresh stale.
  assert (Hdata : data <$> fresh = data <$> stale) by reflexivity.
  split; [exact Hdata|].
  exact (get_ignores_stored_sentiment length_scorer fresh stale ∅ Hdata).
Defined.

Lemma served_store_stays_parseable_witness :
  let reqs := [POST sample_form "id-1" sample_now; GET ∅] in
  Forall parseable [seeded_review]
  ∧ Forall clock_ok reqs
  ∧ Forall parseable (serve length_scorer [seeded_review] reqs).
Proof.
  intros reqs.
  assert (Hparse : Forall parseable [seeded_review])
    by (repeat constructor; eexists; vm_compute; reflexivity).
  assert (Hclock : Forall clock_ok reqs).
  { constructor; [split; [reflexivity|simpl; lia]|].
    constructor; [exact I|constructor]. }
  repeat (split; [assumption|]).
  exact (proj1 (served_store_stays_parseable length_scorer [seeded_review]
                  reqs Hparse Hclock)).
Defined.

(** ** The instants at sample requests *)

(** The bound 2021-01-06 is the instant 63745574400; the review of ten
    o'clock of that day is 36000 seconds later and is not within the end
    date, the review of midnight is. *)
Example end_date_instants :
  day_start (mkDatetime 2021 1 6 0 0 0) = 63745574400%Z
  ∧ (instant <$> strptime_timestamp (Timestamp nowhere_review))
    = Some 63745610400%Z
  ∧ within None (Some (mkDatetime 2021 1 6 0 0 0)) nowhere_review = false
  ∧ within None (Some (mkDatetime 2021 1 6 0 0 0)) midnight_review = true.
Proof. repeat split; reflexivity. Qed.

(** A clock reading before the year 1000 is written without padding and
    does not read back. *)
Example year_999_does_not_read_back :
  strftime (mkDatetime 999 1 1 0 0 0) = "999-01-01 00:00:00"
  ∧ strptime_timestamp (strftime (mkDatetime 999 1 1 0 0 0)) = None.
Proof. split; reflexivity. Qed.
